(** * lightning-pose: the loss classes of [lightning_pose/losses/losses.py]

    A shallow embedding of the loss hierarchy ([Loss], [HeatmapLoss],
    [PCALoss], [TemporalLoss], [UnimodalLoss], [RegressionMSELoss],
    [RegressionRMSELoss]) and of the torch operations they are built from.

    Numbers.  The tensors of the losses hold float32 values.  A tensor
    element is a real number, one of the two infinities, or not-a-number.
    The range of float32 is modelled: an arithmetic result whose magnitude
    reaches [float_overflow] is an infinity, and the infinities and NaN follow
    IEEE 754.  Inside the range the arithmetic is exact: rounding, gradual
    underflow and the sign of zero are not modelled, so that a statement about
    a value computed inside the range says what the code computes up to
    rounding.

    Tensors.  A tensor of rank n is a list nested n times, in row-major
    order; the torch operations that work at every rank are methods of the
    class [Tensor].

    Errors.  A Python exception is the [Raise] branch of [result]. *)

From Stdlib Require Import Reals Lra String ZArith.
From mathcomp Require Import ssreflect ssrfun ssrbool eqtype ssrnat seq.

Set Warnings "-rewrite-rw".
Set Implicit Arguments.
Unset Strict Implicit.
Unset Printing Implicit Defensive.

(** ** Tensor elements *)

Inductive tfloat : Type :=
| Num (r : R)
| PInf
| NInf
| NaN.

Definition isnan (x : tfloat) : bool := if x is NaN then true else false.

(** [torch.isfinite] *)
Definition isfinite (x : tfloat) : bool := if x is Num _ then true else false.

(** The least magnitude that float32 rounds to an infinity, [2^128 - 2^103]:
    half way between the largest float32, [2^128 - 2^104], and [2^128]. *)
Definition float_overflow : R := 340282356779733661637539395458142568448.

(** The float32 value of an arithmetic result whose exact value is [r]. *)
Definition overflow (r : R) : tfloat :=
  if Rle_dec float_overflow r then PInf
  else if Rle_dec r (- float_overflow) then NInf
  else Num r.

Arguments overflow : simpl never.

Definition fadd (a b : tfloat) : tfloat :=
  match a, b with
  | Num x, Num y => overflow (x + y)
  | NaN, _ | _, NaN => NaN
  | PInf, NInf | NInf, PInf => NaN
  | PInf, _ | _, PInf => PInf
  | NInf, _ | _, NInf => NInf
  end.

Definition fsub (a b : tfloat) : tfloat :=
  match a, b with
  | Num x, Num y => overflow (x - y)
  | NaN, _ | _, NaN => NaN
  | PInf, PInf | NInf, NInf => NaN
  | PInf, _ | _, NInf => PInf
  | NInf, _ | _, PInf => NInf
  end.

(** An infinity, of the given sign, times the finite number [y]: the product
    with zero is NaN. *)
Definition inf_times (positive : bool) (y : R) : tfloat :=
  if Rlt_dec 0 y then (if positive then PInf else NInf)
  else if Rlt_dec y 0 then (if positive then NInf else PInf)
  else NaN.

Definition fmul (a b : tfloat) : tfloat :=
  match a, b with
  | Num x, Num y => overflow (x * y)
  | NaN, _ | _, NaN => NaN
  | PInf, PInf | NInf, NInf => PInf
  | PInf, NInf | NInf, PInf => NInf
  | PInf, Num y | Num y, PInf => inf_times true y
  | NInf, Num y | Num y, NInf => inf_times false y
  end.

(** [0 / 0] and an infinity over an infinity are NaN; a non-zero number over
    zero is an infinity, a number over an infinity is zero.  The zero
    divisors of this file are sums of no elements, element counts and
    products of non-negative numbers, that is positive zeros: the quotient
    has the sign of the dividend. *)
Definition fdiv (a b : tfloat) : tfloat :=
  match a, b with
  | Num x, Num y =>
      if Req_dec_T y 0 then
        (if Rlt_dec 0 x then PInf else if Rlt_dec x 0 then NInf else NaN)
      else overflow (x / y)
  | NaN, _ | _, NaN => NaN
  | Num _, _ => Num 0
  | PInf, Num y => if Rlt_dec y 0 then NInf else PInf
  | NInf, Num y => if Rlt_dec y 0 then PInf else NInf
  | _, _ => NaN
  end.

(** [torch.exp]: the exponential of a large argument overflows.  That of a
    very negative argument is a tiny number here, where float32 ends at zero;
    in the weight, the only place where the losses exponentiate, both make
    the weight infinite. *)
Definition fexp (a : tfloat) : tfloat :=
  match a with
  | Num x => overflow (exp x)
  | PInf => PInf
  | NInf => Num 0
  | NaN => NaN
  end.

(** The square root of a negative number is NaN. *)
Definition fsqrt (a : tfloat) : tfloat :=
  match a with
  | Num x => if Rlt_dec x 0 then NaN else Num (sqrt x)
  | PInf => PInf
  | NInf | NaN => NaN
  end.

Definition fsq (a : tfloat) : tfloat := fmul a a.

(** Comparisons: every comparison with NaN is false. *)
Definition flt (a b : tfloat) : bool :=
  match a, b with
  | Num x, Num y => if Rlt_dec x y then true else false
  | NInf, Num _ | NInf, PInf | Num _, PInf => true
  | _, _ => false
  end.

Definition feq (a b : tfloat) : bool :=
  match a, b with
  | Num x, Num y => if Req_dec_T x y then true else false
  | PInf, PInf | NInf, NInf => true
  | _, _ => false
  end.

(** ** Exceptions *)

Inductive exn : Type :=
| TypeError | RuntimeError | KeyError | ValueError | NotImplementedError.

Inductive result (A : Type) : Type :=
| Ok (a : A)
| Raise (e : exn).

Arguments Ok {A} a.
Arguments Raise {A} e.

Definition bind {A B : Type} (m : result A) (k : A -> result B) : result B :=
  match m with Ok a => k a | Raise e => Raise e end.

Notation "x <- m ;; k" := (bind m (fun x => k))
  (at level 100, m at next level, right associativity).

Notation "' p <- m ;; k" := (bind m (fun p => k))
  (at level 100, p pattern, m at next level, right associativity).

(** ** Tensors of every rank *)

Class Tensor (T : Type) : Type := {
  (** the elements in row-major order *)
  elems : T -> seq tfloat;
  (** an elementwise operation *)
  tmap : (tfloat -> tfloat) -> T -> T;
  (** an elementwise operation on two tensors of one shape *)
  tmap2 : (tfloat -> tfloat -> tfloat) -> T -> T -> T;
  (** do the two tensors have the same extent in every dimension *)
  same_shape : T -> T -> bool;
  elems_tmap : forall f t, elems (tmap f t) = [seq f x | x <- elems t];
  same_shape_tmap : forall f t, same_shape (tmap f t) t
}.

Lemma elems_tmap0 (f : tfloat -> tfloat) (x : tfloat) :
  [:: f x] = [seq f y | y <- [:: x]].
Proof. by []. Qed.

#[export] Instance tensor0 : Tensor tfloat := {|
  elems := fun x => [:: x];
  tmap := fun f x => f x;
  tmap2 := fun f x y => f x y;
  same_shape := fun _ _ => true;
  elems_tmap := elems_tmap0;
  same_shape_tmap := fun _ _ => isT
|}.

Section Nested.
Variables (T : Type) (tensorT : Tensor T).

Definition elemsS (t : seq T) : seq tfloat := flatten [seq elems x | x <- t].

Definition tmapS (f : tfloat -> tfloat) (t : seq T) : seq T :=
  [seq tmap f x | x <- t].

Definition tmap2S (f : tfloat -> tfloat -> tfloat) (a b : seq T) : seq T :=
  [seq tmap2 f xy.1 xy.2 | xy <- zip a b].

Definition same_shapeS (a b : seq T) : bool :=
  (size a == size b) && all (fun xy => same_shape xy.1 xy.2) (zip a b).

Lemma elems_tmapS f t : elemsS (tmapS f t) = [seq f x | x <- elemsS t].
Proof.
rewrite /elemsS /tmapS map_flatten -!map_comp; congr flatten.
by apply: eq_map => x /=; rewrite elems_tmap.
Qed.

Lemma same_shape_tmapS f t : same_shapeS (tmapS f t) t.
Proof.
rewrite /same_shapeS /tmapS size_map eqxx /=.
by elim: t => [|x t IH] //=; rewrite same_shape_tmap.
Qed.

#[export] Instance tensorS : Tensor (seq T) := {|
  elems := elemsS;
  tmap := tmapS;
  tmap2 := tmap2S;
  same_shape := same_shapeS;
  elems_tmap := elems_tmapS;
  same_shape_tmap := same_shape_tmapS
|}.

End Nested.

Definition tensor1 : Type := seq tfloat.
Definition tensor2 : Type := seq tensor1.
Definition tensor3 : Type := seq tensor2.
Definition tensor4 : Type := seq tensor3.

(** ** The torch operations used by the losses *)

(** [torch.sum] and [torch.mean] over all the elements of a tensor.  The mean
    is the sum over the number of elements, hence NaN ([0 / 0]) for a tensor
    without elements. *)
Definition torch_sum (xs : seq tfloat) : tfloat := foldr fadd (Num 0) xs.

Definition torch_mean (xs : seq tfloat) : tfloat :=
  fdiv (torch_sum xs) (Num (INR (size xs))).

(** [F.mse_loss(input, target, reduction="none")] *)
Definition mse_loss {T : Type} {tensorT : Tensor T} (input target : T) : T :=
  tmap2 (fun x y => fsq (fsub x y)) input target.

(** [loss.masked_fill(mask=..., value=...)], the mask given by the test that
    computes it elementwise *)
Definition masked_fill {T : Type} {tensorT : Tensor T}
    (t : T) (test : tfloat -> bool) (value : tfloat) : T :=
  tmap (fun x => if test x then value else x) t.

(** [torch.masked_select(input, mask)] for an input and a mask of one shape:
    the selected elements as a 1D tensor, in row-major order *)
Definition masked_select (A : Type) (input : seq (seq A))
    (m : seq (seq bool)) : seq A :=
  mask (flatten m) (flatten input).

(** [t[m]] for a boolean [m] over the two leading dimensions of [t]: the
    selected entries stacked along a new leading dimension *)
Definition bool_index (A : Type) (t : seq (seq A)) (m : seq (seq bool)) : seq A :=
  mask (flatten m) (flatten t).

(** [t.reshape(-1, 2)] on a 1D tensor: rows of two elements; the size must be
    a multiple of two (zero included) *)
Definition reshape_pairs (A : Type) (t : seq A) : result (seq (seq A)) :=
  if odd (size t) then Raise RuntimeError
  else Ok (reshape (nseq (size t)./2 2) t).

(** [t.reshape(t.shape[0], -1, 2)] on a 2D tensor: every row is cut into
    pairs.  torch refuses to infer the middle dimension of a tensor without
    rows, and a row of odd width cannot be cut. *)
Definition reshape_rows_pairs (A : Type) (t : seq (seq A))
    : result (seq (seq (seq A))) :=
  if t is [::] then Raise RuntimeError
  else if all (fun row => ~~ odd (size row)) t
       then Ok [seq reshape (nseq (size row)./2 2) row | row <- t]
       else Raise RuntimeError.

(** [torch.diff(t, dim=0)]: row [i + 1] minus row [i] *)
Definition torch_diff (t : tensor2) : tensor2 :=
  if t is row0 :: rows
  then pairmap (fun prev next => tmap2 fsub next prev) row0 rows
  else [::].

(** [torch.linalg.norm(t, ord=2, dim=2)] on one vector of the last axis *)
Definition vector_norm (v : seq tfloat) : tfloat :=
  fsqrt (torch_sum [seq fsq x | x <- v]).

(** ** Stages and log entries *)

Inductive Stage : Type := train | val | test.

Definition stage_name (s : Stage) : string :=
  match s with train => "train" | val => "val" | test => "test" end.

(** The dicts returned by [log_loss]; the weight dict has no ["prog_bar"]. *)
Record log_dict : Type := LogDict {
  name : string;
  value : tfloat;
  prog_bar : option bool
}.

(** ** class Loss *)

Module Loss.

Record t : Type := mk {
  epsilon : tfloat;
  log_weight : tfloat;
  loss_name : string
}.

Definition init (epsilon log_weight : tfloat) : t :=
  {| epsilon := epsilon; log_weight := log_weight; loss_name := "base" |}.

Definition set_loss_name (self : t) (n : string) : t :=
  {| epsilon := epsilon self; log_weight := log_weight self; loss_name := n |}.

Definition set_epsilon (self : t) (e : tfloat) : t :=
  {| epsilon := e; log_weight := log_weight self; loss_name := loss_name self |}.

Definition weight (self : t) : tfloat :=
  fdiv (Num 1) (fmul (Num 2) (fexp (log_weight self))).

Definition rectify_epsilon {T : Type} {tensorT : Tensor T} (self : t) (loss : T) : T :=
  masked_fill loss (fun x => flt x (epsilon self)) (Num 0).

Definition reduce_methods_dict (method : string)
    : option (seq tfloat -> tfloat) :=
  if String.eqb method "mean" then Some torch_mean
  else if String.eqb method "sum" then Some torch_sum
  else None.

Definition reduce_loss {T : Type} {tensorT : Tensor T}
    (self : t) (loss : T) (method : string) : result tfloat :=
  if reduce_methods_dict method is Some f then Ok (f (elems loss))
  else Raise KeyError.

(** [stage] is annotated [Literal["train", "val", "test"]] and the method is
    [@typechecked]: [None] is rejected. *)
Definition log_loss (self : t) (loss : tfloat) (stage : option Stage)
    : result (seq log_dict) :=
  if stage is Some st then
    Ok [:: {| name := stage_name st ++ "_" ++ loss_name self ++ "_loss";
              value := loss; prog_bar := Some true |};
           {| name := loss_name self ++ "_weight";
              value := weight self; prog_bar := None |}]
  else Raise TypeError.

End Loss.

(** ** class HeatmapLoss and its two subclasses *)

Module HeatmapLoss.

(** [super().__init__(data_module=data_module, log_weight=log_weight)]:
    [epsilon] keeps its default [0.0]. *)
Definition init (log_weight : tfloat) : Loss.t :=
  Loss.init (Num 0) log_weight.

(** [torch.all(squeezed_targets == 0.0, dim=-1)] on one (batch, keypoint)
    slice, whose spatial extent [reshape] has flattened *)
Definition all_zero (slice : tensor2) : bool :=
  all (fun x => feq x (Num 0)) (flatten slice).

Definition all_zeroes (targets : tensor4) : seq (seq bool) :=
  [seq [seq all_zero slice | slice <- row] | row <- targets].

(** [~all_zeroes] *)
Definition invert (m : seq (seq bool)) : seq (seq bool) :=
  [seq [seq ~~ b | b <- row] | row <- m].

(** [@typechecked] rejects two heatmap tensors of different shapes.
    [targets.reshape(targets.shape[0], targets.shape[1], -1)] leaves the last
    dimension to torch, which refuses to infer it when the batch or the
    number of keypoints is zero, that is when there is no (batch, keypoint)
    slice at all. *)
Definition remove_nans (targets predictions : tensor4)
    : result (tensor3 * tensor3) :=
  if same_shape targets predictions then
    if nilp (flatten targets) then Raise RuntimeError
    else
      let all_zeroes := all_zeroes targets in
      Ok (bool_index targets (invert all_zeroes),
          bool_index predictions (invert all_zeroes))
  else Raise TypeError.

(** [__call__]; [compute_loss] is the method of the subclass, whose result
    is a tensor of some rank [T]. *)
Definition call {T : Type} {tensorT : Tensor T}
    (compute_loss : tensor3 -> tensor3 -> result T)
    (self : Loss.t) (heatmaps_targ heatmaps_pred : tensor4)
    (stage : option Stage) : result (tfloat * seq log_dict) :=
  clean <- remove_nans heatmaps_targ heatmaps_pred ;;
  elementwise_loss <- compute_loss clean.1 clean.2 ;;
  scalar_loss <- Loss.reduce_loss self elementwise_loss "mean" ;;
  logs <- Loss.log_loss self scalar_loss stage ;;
  Ok (fmul (Loss.weight self) scalar_loss, logs).

End HeatmapLoss.

Module HeatmapMSELoss.

Definition init (log_weight : tfloat) : Loss.t :=
  Loss.set_loss_name (HeatmapLoss.init log_weight) "heatmap_mse".

Definition compute_loss (targets predictions : tensor3) : result tensor3 :=
  if same_shape targets predictions then Ok (mse_loss targets predictions)
  else Raise TypeError.

Definition call : Loss.t -> tensor4 -> tensor4 -> option Stage ->
    result (tfloat * seq log_dict) :=
  HeatmapLoss.call compute_loss.

End HeatmapMSELoss.

Module HeatmapWassersteinLoss.

Section Geomloss.
(** [SamplesLoss(loss="sinkhorn", reach=reach_)] of the geomloss package: one
    distance for each pair of slices.  [reach] is [None] for ["none"]. *)
Variable SamplesLoss : option tfloat -> tensor3 -> tensor3 -> result tensor1.

Record t : Type := mk {
  base : Loss.t;
  reach_ : option tfloat
}.

Definition init (log_weight : tfloat) (reach : option tfloat) : t :=
  {| base := Loss.set_loss_name (HeatmapLoss.init log_weight)
               "heatmap_wasserstein";
     reach_ := reach |}.

Definition wasserstein_loss (self : t) : tensor3 -> tensor3 -> result tensor1 :=
  SamplesLoss (reach_ self).

(** [@typechecked] rejects two arguments of different shapes, and a result
    that has not one entry for each slice of the arguments (the return
    annotation names the dimension of the result after their leading one). *)
Definition compute_loss (self : t) (targets predictions : tensor3)
    : result tensor1 :=
  if same_shape targets predictions then
    loss <- wasserstein_loss self targets predictions ;;
    if size loss == size targets then Ok loss else Raise TypeError
  else Raise TypeError.

Definition call (self : t) : tensor4 -> tensor4 -> option Stage ->
    result (tfloat * seq log_dict) :=
  HeatmapLoss.call (compute_loss self) (base self).

End Geomloss.

End HeatmapWassersteinLoss.

(** ** class PCALoss *)

Module PCALoss.

(** What the loss reads of its [KeypointPCA] object after the fit:
    [parameters["epsilon"]], [parameters["kept_eigenvectors"]],
    [parameters["mean"]] and [mirrored_column_matches]. *)
Record KeypointPCA : Type := mkPCA {
  pca_epsilon : tfloat;
  kept_eigenvectors : tensor2;
  pca_mean : tensor1;
  mirrored_column_matches : option (seq (seq nat))
}.

Record t : Type := mk {
  base : Loss.t;
  pca : KeypointPCA
}.

Section Pca.
(** The functions of [lightning_pose.utils.pca]. *)
Variable fit_KeypointPCA :
  string -> option (seq (seq nat)) -> KeypointPCA.
Variable compute_pca_reprojection_error :
  tensor2 -> tensor2 -> tensor1 -> result tensor2.
Variable format_multiview_data_for_pca :
  tensor3 -> option (seq (seq nat)) -> result tensor2.

(** [loss_name] is annotated [Literal["pca_singleview", "pca_multiview"]].
    [KeypointPCA(...)] is built and called once; [self.epsilon] becomes the
    epsilon of the fit. *)
Definition init (loss_name : string)
    (mirrored_column_matches : option (seq (seq nat)))
    (log_weight : tfloat) : result t :=
  if String.eqb loss_name "pca_singleview"
     || String.eqb loss_name "pca_multiview" then
    let self := Loss.set_loss_name (Loss.init (Num 0) log_weight) loss_name in
    if String.eqb loss_name "pca_multiview" && ~~ mirrored_column_matches
    then Raise ValueError
    else
      let pca := fit_KeypointPCA loss_name mirrored_column_matches in
      Ok {| base := Loss.set_epsilon self (pca_epsilon pca); pca := pca |}
  else Raise TypeError.

(** The return annotation names the leading dimension of the result after
    the one of [predictions]: [@typechecked] rejects a reprojection error
    with another number of rows. *)
Definition compute_loss (self : t) (predictions : tensor2) : result tensor2 :=
  reproj_error <-
    compute_pca_reprojection_error predictions
      (kept_eigenvectors (pca self)) (pca_mean (pca self)) ;;
  if size reproj_error == size predictions then Ok reproj_error
  else Raise TypeError.

Definition call (self : t) (keypoints_pred : tensor2) (stage : option Stage)
    : result (tfloat * seq log_dict) :=
  keypoints_pred <-
    (if String.eqb (Loss.loss_name (base self)) "pca_multiview" then
       keypoints_pred <- reshape_rows_pairs keypoints_pred ;;
       format_multiview_data_for_pca keypoints_pred
         (mirrored_column_matches (pca self))
     else if String.eqb (Loss.loss_name (base self)) "pca_singleview" then
       Ok keypoints_pred
     else Raise NotImplementedError) ;;
  elementwise_loss <- compute_loss self keypoints_pred ;;
  let epsilon_insensitive_loss :=
    Loss.rectify_epsilon (base self) elementwise_loss in
  scalar_loss <- Loss.reduce_loss (base self) epsilon_insensitive_loss "mean" ;;
  logs <- Loss.log_loss (base self) scalar_loss stage ;;
  Ok (fmul (Loss.weight (base self)) scalar_loss, logs).

End Pca.

End PCALoss.

(** ** class TemporalLoss *)

Module TemporalLoss.

Definition init (epsilon log_weight : tfloat) : Loss.t :=
  Loss.set_loss_name (Loss.init epsilon log_weight) "temporal".

Definition compute_loss (predictions : tensor2) : result tensor2 :=
  let diffs := torch_diff predictions in
  reshape <- reshape_rows_pairs diffs ;;
  Ok [seq [seq vector_norm xy | xy <- row] | row <- reshape].

Definition call (self : Loss.t) (keypoints_pred : tensor2)
    (stage : option Stage) : result (tfloat * seq log_dict) :=
  elementwise_loss <- compute_loss keypoints_pred ;;
  let epsilon_insensitive_loss := Loss.rectify_epsilon self elementwise_loss in
  scalar_loss <- Loss.reduce_loss self epsilon_insensitive_loss "mean" ;;
  logs <- Loss.log_loss self scalar_loss stage ;;
  Ok (fmul (Loss.weight self) scalar_loss, logs).

End TemporalLoss.

(** ** class UnimodalLoss *)

Module UnimodalLoss.

Record t : Type := mk {
  base : Loss.t;
  original_image_height : Z;
  original_image_width : Z;
  downsampled_image_height : Z;
  downsampled_image_width : Z;
  wasserstein_loss : option (tensor3 -> tensor3 -> result tensor1)
}.

(** [t.reshape(-1, t.shape[-2], t.shape[-1])]: the batch and keypoint
    dimensions collapse into one.  torch cannot infer the leading dimension
    when the slices have no element. *)
Definition collapse (x : tensor4) : result tensor3 :=
  let slices := flatten x in
  if ~~ nilp slices && all (fun slice => nilp (flatten slice)) slices
  then Raise RuntimeError
  else Ok slices.

Section Collaborators.
(** [SamplesLoss] of geomloss and [generate_heatmaps] of
    [lightning_pose.data.utils]: keypoints of shape (batch, K, 2), the
    height and the width of the image and the output shape. *)
Variable SamplesLoss : option tfloat -> tensor3 -> tensor3 -> result tensor1.
Variable generate_heatmaps : tensor3 -> Z -> Z -> Z * Z -> result tensor4.

(** [loss_name] is annotated
    [Literal["unimodal_mse", "unimodal_wasserstein"]]. *)
Definition init (loss_name : string)
    (original_image_height original_image_width : Z)
    (downsampled_image_height downsampled_image_width : Z)
    (reach : option tfloat) (epsilon log_weight : tfloat) : result t :=
  if String.eqb loss_name "unimodal_mse"
     || String.eqb loss_name "unimodal_wasserstein" then
    Ok {| base := Loss.set_loss_name (Loss.init epsilon log_weight) loss_name;
          original_image_height := original_image_height;
          original_image_width := original_image_width;
          downsampled_image_height := downsampled_image_height;
          downsampled_image_width := downsampled_image_width;
          wasserstein_loss :=
            if String.eqb loss_name "unimodal_wasserstein"
            then Some (SamplesLoss reach) else None |}
  else Raise TypeError.

(** The result is a 4D tensor for the MSE variant and a 1D tensor for the
    Wasserstein variant. *)
Definition compute_loss (self : t) (targets predictions : tensor4)
    : result (tensor4 + tensor1) :=
  if same_shape targets predictions then
    if String.eqb (Loss.loss_name (base self)) "unimodal_mse" then
      Ok (inl (mse_loss targets predictions))
    else if String.eqb (Loss.loss_name (base self)) "unimodal_wasserstein" then
      targets_rs <- collapse targets ;;
      predictions_rs <- collapse predictions ;;
      if wasserstein_loss self is Some wasserstein_loss then
        loss <- wasserstein_loss targets_rs predictions_rs ;; Ok (inr loss)
      else Raise TypeError
    else Raise NotImplementedError
  else Raise TypeError.

(** [@typechecked] wants one batch size in both arguments. *)
Definition call (self : t) (keypoints_pred : tensor2) (heatmaps_pred : tensor4)
    (stage : option Stage) : result (tfloat * seq log_dict) :=
  if size keypoints_pred == size heatmaps_pred then
    keypoints_pred <- reshape_rows_pairs keypoints_pred ;;
    heatmaps_ideal <-
      generate_heatmaps keypoints_pred
        (original_image_height self) (original_image_width self)
        (downsampled_image_height self, downsampled_image_width self) ;;
    elementwise_loss <- compute_loss self heatmaps_ideal heatmaps_pred ;;
    scalar_loss <-
      match elementwise_loss with
      | inl loss => Loss.reduce_loss (base self) loss "mean"
      | inr loss => Loss.reduce_loss (base self) loss "mean"
      end ;;
    logs <- Loss.log_loss (base self) scalar_loss stage ;;
    Ok (fmul (Loss.weight (base self)) scalar_loss, logs)
  else Raise TypeError.

End Collaborators.

End UnimodalLoss.

(** ** class RegressionMSELoss and its subclass RegressionRMSELoss *)

Module RegressionMSELoss.

Definition init (epsilon log_weight : tfloat) : Loss.t :=
  Loss.set_loss_name (Loss.init epsilon log_weight) "regression_mse".

(** [@typechecked] rejects two coordinate tensors of different shapes. *)
Definition remove_nans (targets predictions : tensor2)
    : result (tensor1 * tensor1) :=
  if same_shape targets predictions then
    let mask := [seq [seq feq x x | x <- row] | row <- targets] in
    let targets_masked := masked_select targets mask in
    let predictions_masked := masked_select predictions mask in
    Ok (targets_masked, predictions_masked)
  else Raise TypeError.

Definition compute_loss (targets predictions : tensor1) : result tensor1 :=
  if same_shape targets predictions then Ok (mse_loss targets predictions)
  else Raise TypeError.

(** [__call__]; [compute_loss] is the method of the class of [self], the one
    above or the one of [RegressionRMSELoss]. *)
Definition call (compute_loss : tensor1 -> tensor1 -> result tensor1)
    (self : Loss.t) (keypoints_targ keypoints_pred : tensor2)
    (stage : option Stage) : result (tfloat * seq log_dict) :=
  clean <- remove_nans keypoints_targ keypoints_pred ;;
  elementwise_loss <- compute_loss clean.1 clean.2 ;;
  scalar_loss <- Loss.reduce_loss self elementwise_loss "mean" ;;
  logs <- Loss.log_loss self scalar_loss stage ;;
  Ok (fmul (Loss.weight self) scalar_loss, logs).

End RegressionMSELoss.

Module RegressionRMSELoss.

Definition init (epsilon log_weight : tfloat) : Loss.t :=
  Loss.set_loss_name (RegressionMSELoss.init epsilon log_weight) "rmse".

Definition compute_loss (targets predictions : tensor1) : result tensor1 :=
  if same_shape targets predictions then
    targs <- reshape_pairs targets ;;
    preds <- reshape_pairs predictions ;;
    let loss := [seq torch_mean row | row <- mse_loss targs preds] in
    Ok (tmap fsqrt loss)
  else Raise TypeError.

(** [remove_nans] and [__call__] are inherited. *)
Definition call : Loss.t -> tensor2 -> tensor2 -> option Stage ->
    result (tfloat * seq log_dict) :=
  RegressionMSELoss.call compute_loss.

End RegressionRMSELoss.

(** ** The registry *)

Inductive loss_class : Type :=
| RegressionMSELoss_class
| HeatmapMSELoss_class
| HeatmapWassersteinLoss_class
| PCALoss_class
| TemporalLoss_class
| UnimodalLoss_class.

Definition get_loss_classes (key : string) : option loss_class :=
  if String.eqb key "regression" then Some RegressionMSELoss_class
  else if String.eqb key "heatmap_mse" then Some HeatmapMSELoss_class
  else if String.eqb key "heatmap_wasserstein"
       then Some HeatmapWassersteinLoss_class
  else if String.eqb key "pca_multiview" then Some PCALoss_class
  else if String.eqb key "pca_singleview" then Some PCALoss_class
  else if String.eqb key "temporal" then Some TemporalLoss_class
  else if String.eqb key "unimodal_mse" then Some UnimodalLoss_class
  else if String.eqb key "unimodal_wasserstein" then Some UnimodalLoss_class
  else None.

(** ** Vocabulary of the statements *)

(** A value that float32 can hold: an infinity, NaN, or a number whose
    magnitude is below the overflow threshold.  Every result of the
    arithmetic is one. *)
Definition representable (x : tfloat) : Prop :=
  if x is Num r then (- float_overflow < r < float_overflow)%R else True.

(** What a call makes of the elements [xs] of its elementwise loss: it
    returns the weight times their mean, with the log entries of
    [log_loss] for that mean, which hold the mean and the weight. *)
Definition weighted_mean (self : Loss.t) (xs : seq tfloat)
    (stage : option Stage) (v : tfloat) (logs : seq log_dict) : Prop :=
  [/\ v = fmul (Loss.weight self) (torch_mean xs),
      Loss.log_loss self (torch_mean xs) stage = Ok logs
    & [seq value d | d <- logs] = [:: torch_mean xs; Loss.weight self]].

(** The elements of what [UnimodalLoss.compute_loss] returns. *)
Definition unimodal_elems (loss : tensor4 + tensor1) : seq tfloat :=
  match loss with inl l => elems l | inr l => elems l end.

(** Not below zero: a non-negative number, the positive infinity or NaN. *)
Definition not_negative (x : tfloat) : bool := ~~ flt x (Num 0).

(** * Properties *)

(** ** Arithmetic of tensor elements *)

Ltac in_range := by rewrite /float_overflow; (lra || nra).

Lemma overflow_num (r : R) :
  (- float_overflow < r < float_overflow)%R -> overflow r = Num r.
Proof.
move=> [lo hi]; rewrite /overflow.
case: (Rle_dec float_overflow r) => ?; first lra.
by case: (Rle_dec r (- float_overflow)) => ?; first lra.
Qed.

Lemma representable_overflow (r : R) : representable (overflow r).
Proof.
rewrite /overflow; case: (Rle_dec float_overflow r) => ? //.
by case: (Rle_dec r (- float_overflow)) => ? //=; lra.
Qed.

Lemma representable0 : representable (Num 0).
Proof. by rewrite /=; in_range. Qed.

Lemma representable_inf_times (positive : bool) (y : R) :
  representable (inf_times positive y).
Proof.
rewrite /inf_times; case: (Rlt_dec 0 y) => ?; first by case: positive.
by case: (Rlt_dec y 0) => ? //; case: positive.
Qed.

Lemma representable_fadd (a b : tfloat) : representable (fadd a b).
Proof. by case: a b => [x|||] [y|||] //=; exact: representable_overflow. Qed.

Lemma representable_fmul (a b : tfloat) : representable (fmul a b).
Proof.
case: a b => [x|||] [y|||] //=;
  by [exact: representable_overflow | exact: representable_inf_times].
Qed.

Lemma representable_fsq (a : tfloat) : representable (fsq a).
Proof. exact: representable_fmul. Qed.

Lemma fadd0 (x : tfloat) : representable x -> fadd x (Num 0) = x.
Proof. by case: x => [r|||] //= rep; rewrite Rplus_0_r overflow_num. Qed.

Lemma fmulNaN (x : tfloat) : fmul x NaN = NaN.
Proof. by case: x. Qed.

Lemma fadd_num (x y : R) :
  (- float_overflow < x + y < float_overflow)%R ->
  fadd (Num x) (Num y) = Num (x + y).
Proof. exact: overflow_num. Qed.

Lemma fsub_num (x y : R) :
  (- float_overflow < x - y < float_overflow)%R ->
  fsub (Num x) (Num y) = Num (x - y).
Proof. exact: overflow_num. Qed.

Lemma fmul_num (x y : R) :
  (- float_overflow < x * y < float_overflow)%R ->
  fmul (Num x) (Num y) = Num (x * y).
Proof. exact: overflow_num. Qed.

(** Arithmetic on numbers that stay in the range. *)
Ltac fnum :=
  try rewrite /fsq;
  repeat (progress
    (rewrite ?overflow_num ?fsub_num ?fmul_num ?fadd_num; try in_range)).

Lemma fdiv_num (x y : R) :
  y <> 0%R -> (- float_overflow < x / y < float_overflow)%R ->
  fdiv (Num x) (Num y) = Num (x / y).
Proof.
move=> y0 rep; rewrite /fdiv; case: (Req_dec_T y 0) => // ?.
exact: overflow_num.
Qed.

Lemma fdiv00 : fdiv (Num 0) (Num 0) = NaN.
Proof.
rewrite /fdiv; case: (Req_dec_T 0 0) => // ?.
by case: (Rlt_dec 0 0) => ?; first lra.
Qed.

Lemma fsqrt_num (x : R) : (0 <= x)%R -> fsqrt (Num x) = Num (sqrt x).
Proof. by move=> x0; rewrite /fsqrt; case: (Rlt_dec x 0) => // ?; lra. Qed.

Lemma flt_num (x y : R) : (x < y)%R -> flt (Num x) (Num y) = true.
Proof. by rewrite /flt; case: (Rlt_dec x y). Qed.

Lemma flt_numF (x y : R) : (y <= x)%R -> flt (Num x) (Num y) = false.
Proof. by move=> yx; rewrite /flt; case: (Rlt_dec x y) => // ?; lra. Qed.

Lemma feq_refl (x : tfloat) : feq x x = ~~ isnan x.
Proof. by case: x => [r|||] //=; case: (Req_dec_T r r). Qed.

Lemma torch_mean1 (x : R) :
  (- float_overflow < x < float_overflow)%R -> torch_mean [:: Num x] = Num x.
Proof.
move=> rep; rewrite /torch_mean [torch_sum _]/= Rplus_0_r overflow_num //.
rewrite [INR _]/= fdiv_num; [lra | | by congr (Num _); lra].
by have -> : (x / 1 = x)%R by lra.
Qed.

Lemma torch_mean2 (a b : tfloat) :
  representable b -> torch_mean [:: a; b] = fdiv (fadd a b) (Num 2).
Proof.
by move=> rep; rewrite /torch_mean /= fadd0 //; congr (fdiv _ (Num _)); lra.
Qed.

(** ** The range of the weight *)

Lemma exp_mult_nat (x : R) (n : nat) : exp (x * INR n) = (exp x ^ n)%R.
Proof.
elim: n => [|n IH]; first by rewrite Rmult_0_r exp_0.
by rewrite S_INR Rmult_plus_distr_l Rmult_1_r exp_plus IH /= Rmult_comm.
Qed.

Lemma exp_le (x y : R) : (x <= y)%R -> (exp x <= exp y)%R.
Proof.
case=> [xy|->]; last exact: Rle_refl.
by apply: Rlt_le; apply: exp_increasing.
Qed.

Lemma exp_80 : (2 * exp 80 < float_overflow)%R.
Proof.
have -> : 80%R = (1 * INR 80)%R by rewrite INR_IZR_INZ /=; lra.
rewrite exp_mult_nat.
have le3 : (exp 1 ^ 80 <= 3 ^ 80)%R.
  by apply: pow_incr; split; [apply: Rlt_le; apply: exp_pos | apply: exp_le_3].
have : (2 * 3 ^ 80 < float_overflow)%R.
  rewrite /float_overflow pow_IZR -mult_IZR; apply: IZR_lt.
  by vm_compute.
lra.
Qed.

Lemma exp_100_twice : (2 * float_overflow <= exp 100)%R.
Proof.
have -> : 100%R = (1 / 8 * INR 800)%R by rewrite INR_IZR_INZ /=; lra.
rewrite exp_mult_nat.
have le98 : ((9 / 8) ^ 800 <= exp (1 / 8) ^ 800)%R.
  apply: pow_incr; split; first lra.
  by have := exp_ineq1_le (1 / 8); lra.
have pos8 : (0 < 8 ^ 800)%R by apply: pow_lt; lra.
have e9 : ((9 / 8) ^ 800 * 8 ^ 800 = 9 ^ 800)%R.
  by rewrite -Rpow_mult_distr; congr (_ ^ _)%R; lra.
have : (2 * float_overflow * 8 ^ 800 <= 9 ^ 800)%R.
  rewrite /float_overflow !pow_IZR -!mult_IZR; apply: IZR_le.
  by vm_compute.
rewrite -e9 => le.
have := Rmult_le_reg_r _ _ _ pos8 le.
lra.
Qed.

Lemma exp_100 : (float_overflow <= exp 100)%R.
Proof. by have := exp_100_twice; rewrite {1 2}/float_overflow; lra. Qed.

(** Between [-80] and [80] neither [2 * exp r] nor its inverse leaves the
    range. *)
Lemma weight_in_range (r : R) :
  (-80 <= r <= 80)%R ->
  (0 < 2 * exp r < float_overflow)%R /\
  (0 < 1 / (2 * exp r) < float_overflow)%R.
Proof.
move=> [lo hi].
have pos := exp_pos r.
have le80 : (exp r <= exp 80)%R by apply: exp_le.
have inv80 : (exp (- r) <= exp 80)%R by apply: exp_le; lra.
have e80 := exp_80.
have inv_eq : (1 / (2 * exp r) = exp (- r) / 2)%R.
  by rewrite exp_Ropp; field; lra.
have posN := exp_pos (- r).
by rewrite inv_eq; split; split; lra.
Qed.

Lemma weight_num (self : Loss.t) (r : R) :
  Loss.log_weight self = Num r -> (-80 <= r <= 80)%R ->
  Loss.weight self = Num (1 / (2 * exp r)).
Proof.
move=> lw /weight_in_range [[pos2 lt2] [posw ltw]].
have pos := exp_pos r.
have f0 := Rlt_trans _ _ _ pos2 lt2.
rewrite /Loss.weight lw /fexp overflow_num; first by split; lra.
rewrite /fmul overflow_num; first by split; lra.
by rewrite fdiv_num //; [lra | split; lra].
Qed.

Lemma weight_0 (self : Loss.t) :
  Loss.log_weight self = Num 0 -> Loss.weight self = Num (1 / 2).
Proof.
move=> lw; rewrite (weight_num lw); first lra.
by rewrite exp_0; congr (Num _); lra.
Qed.

(** At [log_weight = 100] the exponential overflows: the weight is zero. *)
Lemma weight_100 (self : Loss.t) :
  Loss.log_weight self = Num 100 -> Loss.weight self = Num 0.
Proof.
move=> lw; rewrite /Loss.weight lw /fexp /overflow.
case: (Rle_dec float_overflow (exp 100)) => [?|/(_ exp_100)] //.
by rewrite /fmul /inf_times; case: (Rlt_dec 0 2) => // ?; lra.
Qed.

(** ** Epsilon-insensitivity *)

Lemma elems_rectify_epsilon (T : Type) (tensorT : Tensor T)
    (self : Loss.t) (loss : T) :
  elems (Loss.rectify_epsilon self loss) =
  [seq if flt x (Loss.epsilon self) then Num 0 else x | x <- elems loss].
Proof. by rewrite /Loss.rectify_epsilon /masked_fill elems_tmap. Qed.



(** ** The mean of no element *)

Lemma torch_mean_nil : torch_mean [::] = NaN.
Proof. exact: fdiv00. Qed.

Lemma reduce_loss_mean (T : Type) (tensorT : Tensor T) (self : Loss.t) (loss : T) :
  Loss.reduce_loss self loss "mean" = Ok (torch_mean (elems loss)).
Proof. by []. Qed.

(** C9, as the claim has it, fails: asked for the mean of a tensor without
    elements, [reduce_loss] neither raises nor returns zero. *)
Lemma reduce_loss_mean_empty_counterexample :
  let r := Loss.reduce_loss (RegressionMSELoss.init (Num 0) (Num 0))
             ([::] : tensor1) "mean" in
  r = Ok NaN /\ ~ ((exists e, r = Raise e) \/ r = Ok (Num 0)).
Proof.
have E : Loss.reduce_loss (RegressionMSELoss.init (Num 0) (Num 0))
           ([::] : tensor1) "mean" = Ok NaN.
  by rewrite reduce_loss_mean [elems _]/= torch_mean_nil.
by rewrite /= E; split=> //; case=> [[e]|].
Qed.

(** ** Masks *)

Section Masks.
Variables A B : Type.

Lemma mask_zip (m : bitseq) (s : seq A) (t : seq B) :
  mask m (zip s t) = zip (mask m s) (mask m t).
Proof.
elim: m s t => [|b m IH] [|x s] [|y t] //=; rewrite ?mask0 //.
- by case: b => //=; case: (mask m _).
- by case: b => //=; case: (mask m _).
- by case: b; rewrite IH.
Qed.

(** Masking by the values of a test on the first list is filtering the
    pairs by that test. *)
Lemma mask_zip_filter (p : pred A) (s : seq A) (t : seq B) :
  size s = size t ->
  zip (mask [seq p x | x <- s] s) (mask [seq p x | x <- s] t) =
  [seq xy <- zip s t | p xy.1].
Proof.
move=> st; rewrite -mask_zip filter_mask; congr mask.
by rewrite (map_comp p fst) -/(unzip1 _) unzip1_zip // st.
Qed.

Lemma size_mask_map (p : pred A) (s : seq A) (t : seq B) :
  size s = size t -> size (mask [seq p x | x <- s] t) = count p s.
Proof. by move=> st; rewrite size_mask ?size_map // count_map. Qed.

Lemma has_mask (p : pred A) (m : bitseq) (s : seq A) (x0 : A) (n : nat) :
  n < size s -> nth false m n -> p (nth x0 s n) -> has p (mask m s).
Proof.
elim: m s n => [|b m IH] [|x s] [|n] //=.
- by move=> _ -> /= ->.
- by move=> ns mn pn; case: b; rewrite /= (IH _ _ ns mn pn) ?orbT.
Qed.

End Masks.

(** Tensors of one shape have rows of the same sizes. *)
Lemma same_shape_shape (T : Type) (tensorT : Tensor T) (a b : seq (seq T)) :
  same_shape a b -> shape a = shape b.
Proof.
elim: a b => [|x a IH] [|y b] //= /andP [sz /= /andP [/andP [/eqP -> _] ab]].
by congr (_ :: _); apply: IH; apply/andP; split.
Qed.

Lemma same_shape_size_flatten (T : Type) (tensorT : Tensor T)
    (a b : seq (seq T)) :
  same_shape a b -> size (flatten a) = size (flatten b).
Proof. by move=> /same_shape_shape ab; rewrite !size_flatten ab. Qed.

Lemma all_flatten (A : Type) (p : pred A) (t : seq (seq A)) :
  all p (flatten t) = all (all p) t.
Proof. by elim: t => [|row t IH] //=; rewrite all_cat IH. Qed.

Lemma flatten_map_map (A B : Type) (f : A -> B) (t : seq (seq A)) :
  flatten [seq [seq f x | x <- row] | row <- t] = [seq f x | x <- flatten t].
Proof. by rewrite map_flatten. Qed.

(** ** Removal of the missing labels *)

(** The claim C3 fails on a batch without slices: the two tensors have one
    shape, and [remove_nans] raises instead of returning the restricted
    tensors. *)
Lemma heatmap_remove_nans_counterexample :
  let targets : tensor4 := [::] in
  let predictions : tensor4 := [::] in
  same_shape targets predictions /\
  HeatmapLoss.remove_nans targets predictions = Raise RuntimeError /\
  ~ (exists clean, HeatmapLoss.remove_nans targets predictions = Ok clean).
Proof. by split=> //; split=> //; case. Qed.

(** C3, amended: on two heatmap tensors of one shape with at least one
    (batch, keypoint) slice, [remove_nans] keeps, in both, the slices whose
    target slice is not entirely zero: one mask, computed from the targets,
    selects from both tensors; both results have as many slices as there are
    target slices that are not all zero; the kept target slices are those
    slices in their original order, and every kept target slice is still
    paired with its prediction.  Without any slice (an empty batch, or no
    keypoint) it raises [RuntimeError]. *)
Theorem heatmap_remove_nans (targets predictions : tensor4) :
  same_shape targets predictions ->
  let keep := [seq ~~ HeatmapLoss.all_zero slice | slice <- flatten targets] in
  let clean_targets := mask keep (flatten targets) in
  let clean_predictions := mask keep (flatten predictions) in
  [/\ HeatmapLoss.remove_nans targets predictions =
        if flatten targets is [::] then Raise RuntimeError
        else Ok (clean_targets, clean_predictions),
      size clean_targets = count (predC HeatmapLoss.all_zero) (flatten targets),
      size clean_predictions =
        count (predC HeatmapLoss.all_zero) (flatten targets),
      clean_targets =
        [seq slice <- flatten targets | ~~ HeatmapLoss.all_zero slice]
    & zip clean_targets clean_predictions =
        [seq tp <- zip (flatten targets) (flatten predictions)
        | ~~ HeatmapLoss.all_zero tp.1]].
Proof.
move=> same keep clean_targets clean_predictions.
have sz := same_shape_size_flatten same.
split.
- rewrite /HeatmapLoss.remove_nans same /clean_targets /clean_predictions /keep.
  rewrite /bool_index /HeatmapLoss.invert /HeatmapLoss.all_zeroes.
  rewrite !flatten_map_map -map_comp.
  by case: (flatten targets).
- by rewrite (size_mask_map (predC HeatmapLoss.all_zero)).
- by rewrite (size_mask_map (predC HeatmapLoss.all_zero)).
- by rewrite (filter_mask (predC HeatmapLoss.all_zero)).
- exact: (mask_zip_filter (predC HeatmapLoss.all_zero)).
Qed.

Lemma heatmap_remove_nans_witness :
  let targets : tensor4 :=
    [:: [:: [:: [:: Num 0; Num 0]]; [:: [:: Num 0; Num 1]]]] in
  let predictions : tensor4 :=
    [:: [:: [:: [:: Num 5; Num 6]]; [:: [:: Num 7; Num 8]]]] in
  HeatmapLoss.remove_nans targets predictions =
  Ok ([:: [:: [:: Num 0; Num 1]]], [:: [:: [:: Num 7; Num 8]]]).
Proof.
move=> targets predictions.
have [-> _ _ _ _] := @heatmap_remove_nans targets predictions erefl.
rewrite /HeatmapLoss.all_zero /=.
case: (Req_dec_T 0 0) => [?|]; last by [].
by case: (Req_dec_T 1 0) => [?|?] //=; lra.
Defined.

(** Regression [remove_nans] on two tensors of one shape: what it returns
    and how the two results relate to the flattened arguments. *)
Lemma remove_nans_masked (targets predictions : tensor2) :
  same_shape targets predictions ->
  let valid := [seq ~~ isnan x | x <- flatten targets] in
  let targets_masked := mask valid (flatten targets) in
  let predictions_masked := mask valid (flatten predictions) in
  [/\ RegressionMSELoss.remove_nans targets predictions =
        Ok (targets_masked, predictions_masked),
      size targets_masked = count (predC isnan) (flatten targets),
      size predictions_masked = size targets_masked,
      targets_masked = [seq x <- flatten targets | ~~ isnan x]
    & zip targets_masked predictions_masked =
        [seq tp <- zip (flatten targets) (flatten predictions)
        | ~~ isnan tp.1]].
Proof.
move=> same valid targets_masked predictions_masked.
have sz := same_shape_size_flatten same.
split.
- rewrite /RegressionMSELoss.remove_nans same /masked_select.
  rewrite flatten_map_map -/valid.
  by rewrite /valid (eq_map feq_refl).
- by rewrite (size_mask_map (predC isnan)).
- by rewrite !(size_mask_map (predC isnan)).
- by rewrite (filter_mask (predC isnan)).
- exact: (mask_zip_filter (predC isnan)).
Qed.

(** C4: on two coordinate tensors of one shape, regression [remove_nans]
    returns two flat sequences of one length: one mask, the elementwise test
    that a target is not NaN, selects from the flattened targets and from
    the flattened predictions.  The targets kept are those that are not NaN,
    in order, and each is still paired with its prediction. *)
Theorem regression_remove_nans (targets predictions : tensor2) :
  same_shape targets predictions ->
  let valid := [seq ~~ isnan x | x <- flatten targets] in
  let targets_masked := mask valid (flatten targets) in
  let predictions_masked := mask valid (flatten predictions) in
  [/\ RegressionMSELoss.remove_nans targets predictions =
        Ok (targets_masked, predictions_masked),
      size targets_masked = count (predC isnan) (flatten targets),
      size predictions_masked = size targets_masked,
      targets_masked = [seq x <- flatten targets | ~~ isnan x]
    & zip targets_masked predictions_masked =
        [seq tp <- zip (flatten targets) (flatten predictions)
        | ~~ isnan tp.1]].
Proof. exact: remove_nans_masked. Qed.

Lemma regression_remove_nans_witness :
  let targets : tensor2 := [:: [:: NaN; Num 1]; [:: Num 2; NaN]] in
  let predictions : tensor2 := [:: [:: Num 5; Num 6]; [:: Num 7; Num 8]] in
  RegressionMSELoss.remove_nans targets predictions =
  Ok ([:: Num 1; Num 2], [:: Num 6; Num 7]).
Proof.
move=> targets predictions.
by have [-> _ _ _ _] := @regression_remove_nans targets predictions erefl.
Defined.

(** ** NaN in the loss *)

Lemma torch_sum_nan (xs : seq tfloat) : has isnan xs -> torch_sum xs = NaN.
Proof.
elim: xs => [|x xs IH] //=; case: x => [r|||] //= /IH;
  by rewrite /torch_sum => ->.
Qed.

Lemma torch_mean_nan (xs : seq tfloat) : has isnan xs -> torch_mean xs = NaN.
Proof. by move=> /torch_sum_nan; rewrite /torch_mean => ->. Qed.

Lemma elems1 (xs : tensor1) : elems xs = xs.
Proof. exact: flatten_seq1. Qed.

Lemma mse_loss1 (targets predictions : tensor1) :
  mse_loss targets predictions =
  [seq fsq (fsub tp.1 tp.2) | tp <- zip targets predictions].
Proof. by []. Qed.

Lemma mse_loss1_nan (targets predictions : tensor1) :
  size targets = size predictions -> has isnan predictions ->
  has isnan (mse_loss targets predictions).
Proof.
rewrite mse_loss1.
elim: targets predictions => [|x t IH] [|y p] //= [tp] /orP [|/(IH _ tp) ->].
  by case: y => //; rewrite /fsq /fsub; case: x.
by rewrite orbT.
Qed.

Lemma same_shape1E (a b : tensor1) : same_shape a b = (size a == size b).
Proof.
rewrite /same_shape /= /same_shapeS; case: eqP => //= _.
by elim: (zip a b).
Qed.

Lemma regression_call_nan (self : Loss.t) (targets predictions : tensor2)
    (targets_masked predictions_masked : tensor1) (stage : Stage) :
  RegressionMSELoss.remove_nans targets predictions =
    Ok (targets_masked, predictions_masked) ->
  size targets_masked = size predictions_masked ->
  torch_mean (mse_loss targets_masked predictions_masked) = NaN ->
  exists logs : seq log_dict,
    RegressionMSELoss.call RegressionMSELoss.compute_loss self
      targets predictions (Some stage) = Ok (NaN, logs) /\
    [seq value d | d <- logs] = [:: NaN; Loss.weight self].
Proof.
move=> rn sz mean_nan; rewrite /RegressionMSELoss.call rn /bind.
rewrite /RegressionMSELoss.compute_loss same_shape1E sz eqxx.
rewrite reduce_loss_mean elems1 mean_nan /Loss.log_loss fmulNaN.
by eexists; split.
Qed.

(** The position of entry [(i, j)] of a 2D tensor in its flattening. *)
Lemma nth_flatten_index (A : Type) (x0 : A) (t : seq (seq A)) (i j : nat) :
  j < size (nth [::] t i) ->
  let n := flatten_index (shape t) i j in
  n < size (flatten t) /\ nth x0 (flatten t) n = nth x0 (nth [::] t i) j.
Proof.
move=> jlt n.
have ilt : i < size t.
  by case: (ltnP i (size t)) jlt => // /(nth_default [::]) ->.
have jsh : j < nth 0 (shape t) i by rewrite (nth_map [::]).
split; first by rewrite size_flatten; exact: flatten_indexP.
by rewrite nth_flatten /n flatten_indexKl // flatten_indexKr.
Qed.

(** C10: the mask of regression [remove_nans] is the test [target == target]
    alone.  When a prediction is NaN where the target is a number, the
    masked targets hold no NaN, the masked predictions still hold one, and so
    does the elementwise loss; the mean is NaN and the call returns NaN. *)
Theorem prediction_nan_propagates (self : Loss.t) (targets predictions : tensor2)
    (stage : Stage) (i j : nat) (x : R) :
  same_shape targets predictions ->
  nth NaN (nth [::] targets i) j = Num x ->
  nth (Num 0) (nth [::] predictions i) j = NaN ->
  exists (targets_masked predictions_masked elementwise_loss : tensor1)
         (logs : seq log_dict),
  [/\ RegressionMSELoss.remove_nans targets predictions =
        Ok (targets_masked, predictions_masked),
      predictions_masked =
        mask [seq feq t t | t <- flatten targets] (flatten predictions),
      ~~ has isnan targets_masked /\ has isnan predictions_masked,
      RegressionMSELoss.compute_loss targets_masked predictions_masked =
        Ok elementwise_loss /\ has isnan elementwise_loss
    & RegressionMSELoss.call RegressionMSELoss.compute_loss self
        targets predictions (Some stage) = Ok (NaN, logs) /\
      [seq value d | d <- logs] = [:: NaN; Loss.weight self]].
Proof.
move=> same tx py.
have [rn szt szp tm zp] := remove_nans_masked same.
set valid := [seq ~~ isnan x | x <- flatten targets] in rn szt szp tm zp.
set targets_masked := mask valid (flatten targets) in rn szt szp tm zp.
set predictions_masked := mask valid (flatten predictions) in rn szt szp zp.
have sh := same_shape_shape same.
have jt : j < size (nth [::] targets i).
  by case: (ltnP j (size (nth [::] targets i))) tx => // /(nth_default NaN) ->.
have ilt : i < size targets.
  by case: (ltnP i (size targets)) jt => // /(nth_default [::]) ->.
have ilp : i < size predictions.
  by rewrite -(size_map size predictions) -/(shape _) -sh size_map.
have jp : j < size (nth [::] predictions i).
  by have := congr1 (fun s => nth 0 s i) sh; rewrite !(nth_map [::]) // => <-.
have [nt tn] := nth_flatten_index NaN jt.
have [np pn] := nth_flatten_index (Num 0) jp.
rewrite -sh in np pn.
have nanp : has isnan predictions_masked.
  apply: (has_mask (x0 := Num 0) np); last by rewrite pn py.
  by rewrite (nth_map NaN) // tn tx.
have nant : ~~ has isnan targets_masked.
  by rewrite tm -all_predC; exact: (filter_all (predC isnan)).
have nanl : has isnan (mse_loss targets_masked predictions_masked).
  exact: mse_loss1_nan.
have [logs [call_nan logged]] :=
  regression_call_nan self stage rn (esym szp) (torch_mean_nan nanl).
exists targets_masked, predictions_masked,
  (mse_loss targets_masked predictions_masked), logs; split=> //.
- by rewrite /predictions_masked /valid (eq_map feq_refl).
- by rewrite /RegressionMSELoss.compute_loss same_shape1E szp eqxx.
Qed.

Lemma prediction_nan_propagates_witness :
  let self := RegressionMSELoss.init (Num 0) (Num 0) in
  let targets : tensor2 := [:: [:: Num 1; Num 2]] in
  let predictions : tensor2 := [:: [:: NaN; Num 3]] in
  exists (targets_masked predictions_masked elementwise_loss : tensor1)
         (logs : seq log_dict),
  [/\ RegressionMSELoss.remove_nans targets predictions =
        Ok (targets_masked, predictions_masked),
      predictions_masked =
        mask [seq feq t t | t <- flatten targets] (flatten predictions),
      ~~ has isnan targets_masked /\ has isnan predictions_masked,
      RegressionMSELoss.compute_loss targets_masked predictions_masked =
        Ok elementwise_loss /\ has isnan elementwise_loss
    & RegressionMSELoss.call RegressionMSELoss.compute_loss self
        targets predictions (Some train) = Ok (NaN, logs) /\
      [seq value d | d <- logs] = [:: NaN; Loss.weight self]].
Proof.
move=> self targets predictions.
apply: (@prediction_nan_propagates self targets predictions train 0 0 1).
- reflexivity.
- reflexivity.
- reflexivity.
Defined.

(** C9, amended: asked for the mean of a tensor without elements,
    [reduce_loss] returns NaN, for a tensor of any rank; it neither raises nor
    returns zero.  The NaN reaches the caller: when every target coordinate is
    NaN the regression MSE call masks the whole batch away and returns NaN. *)
Theorem reduce_loss_mean_empty :
  (forall (T : Type) (tensorT : Tensor T) (self : Loss.t) (loss : T),
     elems loss = [::] -> Loss.reduce_loss self loss "mean" = Ok NaN) /\
  (forall (self : Loss.t) (targets predictions : tensor2) (stage : Stage),
     same_shape targets predictions -> all (all isnan) targets ->
     exists logs : seq log_dict,
       RegressionMSELoss.call RegressionMSELoss.compute_loss self
         targets predictions (Some stage) = Ok (NaN, logs) /\
       [seq value d | d <- logs] = [:: NaN; Loss.weight self]).
Proof.
split=> [T tensorT self loss empty|self targets predictions stage same nans].
  by rewrite reduce_loss_mean empty torch_mean_nil.
have [rn szt szp _ _] := remove_nans_masked same.
apply: (regression_call_nan self stage rn (esym szp)).
have c0 : count (predC isnan) (flatten targets) = 0.
  apply/eqP; rewrite -leqn0 leqNgt -has_count has_predC negbK.
  by rewrite all_flatten.
move: szt; rewrite c0 mse_loss1 => /size0nil ->.
by case: (mask _ _) => [|y p]; exact: torch_mean_nil.
Qed.

Lemma reduce_loss_mean_empty_witness :
  let self := RegressionMSELoss.init (Num 0) (Num 0) in
  Loss.reduce_loss self ([:: [::]; [::]] : tensor2) "mean" = Ok NaN /\
  exists logs : seq log_dict,
    RegressionMSELoss.call RegressionMSELoss.compute_loss self
      [:: [:: NaN; NaN]] [:: [:: Num 1; Num 2]] (Some train) = Ok (NaN, logs) /\
    [seq value d | d <- logs] = [:: NaN; Loss.weight self].
Proof.
move=> self; split.
- apply: (proj1 reduce_loss_mean_empty).
  reflexivity.
- apply: (proj2 reduce_loss_mean_empty).
  + reflexivity.
  + reflexivity.
Defined.

(** ** Root mean squared error *)

(** What [RegressionRMSELoss.compute_loss] computes once the two reshapes
    went through, for [n] keypoints. *)
Lemma rmse_compute_loss_even (n : nat) (targets predictions : tensor1) :
  size targets = n.*2 -> size predictions = n.*2 ->
  RegressionRMSELoss.compute_loss targets predictions =
  Ok (tmap fsqrt [seq torch_mean row
                 | row <- mse_loss (reshape (nseq n 2) targets)
                                   (reshape (nseq n 2) predictions)]).
Proof.
move=> st sp; rewrite /RegressionRMSELoss.compute_loss same_shape1E st sp eqxx.
by rewrite /reshape_pairs st sp odd_double doubleK.
Qed.

Lemma rmse_rows_cons (n : nat) (x y x' y' : tfloat) (t p : tensor1) :
  tmap fsqrt [seq torch_mean row
             | row <- mse_loss (reshape (nseq n.+1 2) (x :: y :: t))
                               (reshape (nseq n.+1 2) (x' :: y' :: p))] =
  fsqrt (torch_mean [:: fsq (fsub x x'); fsq (fsub y y')]) ::
  tmap fsqrt [seq torch_mean row
             | row <- mse_loss (reshape (nseq n 2) t) (reshape (nseq n 2) p)].
Proof. by rewrite /mse_loss /tmap /tmap2 /= /tmapS /tmap2S /= !take0 !drop0. Qed.

Lemma rmse_rows_nth (n : nat) (targets predictions : tensor1) (k : nat) :
  size targets = n.*2 -> size predictions = n.*2 -> k < n ->
  nth NaN (tmap fsqrt [seq torch_mean row
                      | row <- mse_loss (reshape (nseq n 2) targets)
                                        (reshape (nseq n 2) predictions)]) k =
  fsqrt (fdiv
    (fadd (fsq (fsub (nth NaN targets k.*2) (nth NaN predictions k.*2)))
          (fsq (fsub (nth NaN targets k.*2.+1) (nth NaN predictions k.*2.+1))))
    (Num 2)).
Proof.
elim: n targets predictions k => [|n IH] [|x [|y t]] [|x' [|y' p]] // k.
rewrite !doubleS => -[st] [sp]; rewrite rmse_rows_cons.
case: k => [_|k kn]; first by rewrite torch_mean2 //; exact: representable_fsq.
by rewrite doubleS /= (IH _ _ _ st sp).
Qed.

Lemma rmse_rows_size (n : nat) (targets predictions : tensor1) :
  size targets = n.*2 -> size predictions = n.*2 ->
  size (tmap fsqrt [seq torch_mean row
                   | row <- mse_loss (reshape (nseq n 2) targets)
                                     (reshape (nseq n 2) predictions)]) = n.
Proof.
by move=> st sp; rewrite !size_map size_zip !size_reshape size_nseq minnn.
Qed.

Lemma sqrt_12_5 : (3.5355 < sqrt (25 / 2) < 3.5356)%R.
Proof.
split.
- rewrite -(sqrt_square 3.5355); first lra.
  by apply: sqrt_lt_1; lra.
- rewrite -[X in (_ < X)%R](sqrt_square 3.5356); first lra.
  by apply: sqrt_lt_1; lra.
Qed.

Lemma rmse_3_4 :
  RegressionRMSELoss.compute_loss [:: Num 0; Num 0] [:: Num 3; Num 4] =
  Ok [:: Num (sqrt (25 / 2))].
Proof.
rewrite (@rmse_compute_loss_even 1) // rmse_rows_cons.
rewrite torch_mean2; try exact: representable_fsq.
rewrite /fsq !fsub_num; try in_range.
rewrite !fmul_num; try in_range.
rewrite fadd_num; try in_range.
rewrite fdiv_num; try in_range; try lra.
rewrite fsqrt_num; try lra.
by congr (Ok [:: Num (sqrt _)]); lra.
Qed.

(** C6: on flat targets and predictions for [n] keypoints,
    [RegressionRMSELoss.compute_loss] returns [n] values, one for each
    keypoint: the square root of the mean of the two squared coordinate
    errors of that keypoint.  For the target [(0, 0)] and the prediction
    [(3, 4)] that is [sqrt 12.5], about 3.5355, and not the distance 5; the
    call on [[0, 0]] and [[3, 4]] returns the weight times that value. *)
Theorem rmse_compute_loss :
  (forall (n : nat) (targets predictions : tensor1),
     size targets = n.*2 -> size predictions = n.*2 ->
     exists loss : tensor1,
       [/\ RegressionRMSELoss.compute_loss targets predictions = Ok loss,
           size loss = n
         & forall k : nat, k < n ->
           nth NaN loss k =
           fsqrt (fdiv
             (fadd
                (fsq (fsub (nth NaN targets k.*2) (nth NaN predictions k.*2)))
                (fsq (fsub (nth NaN targets k.*2.+1)
                           (nth NaN predictions k.*2.+1))))
             (Num 2))]) /\
  RegressionRMSELoss.compute_loss [:: Num 0; Num 0] [:: Num 3; Num 4] =
    Ok [:: Num (sqrt (25 / 2))] /\
  (3.5355 < sqrt (25 / 2) < 3.5356)%R /\ sqrt (25 / 2) <> 5%R /\
  (forall (self : Loss.t) (stage : Stage),
     exists logs : seq log_dict,
       RegressionRMSELoss.call self [:: [:: Num 0; Num 0]]
         [:: [:: Num 3; Num 4]] (Some stage) =
       Ok (fmul (Loss.weight self) (Num (sqrt (25 / 2))), logs)).
Proof.
split; [|split; [|split; [|split]]].
- move=> n targets predictions st sp.
  eexists; split; first exact: (rmse_compute_loss_even st sp).
    exact: rmse_rows_size.
  by move=> k kn; exact: rmse_rows_nth.
- exact: rmse_3_4.
- exact: sqrt_12_5.
- by have := sqrt_12_5; lra.
- move=> self stage.
  rewrite /RegressionRMSELoss.call /RegressionMSELoss.call.
  have -> : RegressionMSELoss.remove_nans [:: [:: Num 0; Num 0]]
              [:: [:: Num 3; Num 4]] =
            Ok ([:: Num 0; Num 0], [:: Num 3; Num 4]).
    by have [-> _ _ _ _] :=
      @remove_nans_masked [:: [:: Num 0; Num 0]] [:: [:: Num 3; Num 4]] erefl.
  have [lo hi] := sqrt_12_5.
  rewrite /bind rmse_3_4 reduce_loss_mean elems1 torch_mean1; try in_range.
  by eexists; rewrite /Loss.log_loss.
Qed.

Lemma rmse_compute_loss_witness :
  exists loss : tensor1,
    [/\ RegressionRMSELoss.compute_loss
          [:: Num 1; Num 1; Num 2; Num 2] [:: Num 4; Num 5; Num 2; Num 3] =
        Ok loss,
        size loss = 2
      & forall k : nat, k < 2 ->
        nth NaN loss k =
        fsqrt (fdiv
          (fadd
             (fsq (fsub (nth NaN [:: Num 1; Num 1; Num 2; Num 2] k.*2)
                        (nth NaN [:: Num 4; Num 5; Num 2; Num 3] k.*2)))
             (fsq (fsub (nth NaN [:: Num 1; Num 1; Num 2; Num 2] k.*2.+1)
                        (nth NaN [:: Num 4; Num 5; Num 2; Num 3] k.*2.+1))))
          (Num 2))].
Proof.
apply: (proj1 rmse_compute_loss 2).
- reflexivity.
- reflexivity.
Defined.

(** ** Temporal differences *)

Lemma vector_norm2 (a b : tfloat) :
  vector_norm [:: a; b] = fsqrt (fadd (fsq a) (fsq b)).
Proof. by rewrite /vector_norm /= fadd0 //; exact: representable_fsq. Qed.

Lemma norm_rows_nth (n : nat) (d : tensor1) (k : nat) :
  size d = n.*2 -> k < n ->
  nth NaN [seq vector_norm xy | xy <- reshape (nseq n 2) d] k =
  fsqrt (fadd (fsq (nth NaN d k.*2)) (fsq (nth NaN d k.*2.+1))).
Proof.
elim: n d k => [|n IH] [|x [|y d]] // k; rewrite doubleS => -[sd].
rewrite [reshape _ _]/= take0 drop0 [map _ _]/= vector_norm2.
by case: k => [|k] // kn; rewrite doubleS /= (IH _ _ sd).
Qed.

(** One row of [torch.diff]. *)
Lemma row_diff_size (next prev : tensor1) (n : nat) :
  size next = n -> size prev = n -> size (tmap2 fsub next prev) = n.
Proof. by move=> sn sp; rewrite size_map size_zip sn sp minnn. Qed.

Lemma row_diff_nth (next prev : tensor1) (j : nat) :
  size next = size prev -> j < size next ->
  nth NaN (tmap2 fsub next prev) j = fsub (nth NaN next j) (nth NaN prev j).
Proof.
move=> sz jlt; rewrite (nth_map (NaN, NaN)) ?size_zip -?sz ?minnn //.
by rewrite nth_zip.
Qed.

Lemma torch_diff_sizes (n : nat) (row0 : tensor1) (rows : tensor2) :
  all (fun row => size row == n) (row0 :: rows) ->
  all (fun row => size row == n)
    (pairmap (fun prev next => tmap2 fsub next prev) row0 rows).
Proof.
elim: rows row0 => [|row1 rows IH] row0 //= /and3P [/eqP s0 /eqP s1 srows].
rewrite (row_diff_size s1 s0) eqxx /=.
by apply: IH; rewrite /= s1 eqxx.
Qed.

Lemma reshape_rows_pairs_even (A : Type) (K : nat) (t : seq (seq A)) :
  0 < size t -> all (fun row => size row == K.*2) t ->
  reshape_rows_pairs t = Ok [seq reshape (nseq K 2) row | row <- t].
Proof.
case: t => [|row0 t] // _ sz; rewrite /reshape_rows_pairs.
have -> : all (fun row => ~~ odd (size row)) (row0 :: t).
  by apply: sub_all sz => row /eqP ->; rewrite odd_double.
congr Ok; elim: (row0 :: t) sz => [|row rows IH] //= /andP [/eqP sr /IH ->].
by rewrite sr doubleK.
Qed.

Lemma temporal_3_4_5 :
  TemporalLoss.compute_loss
    [:: [:: Num 0; Num 0]; [:: Num 3; Num 4]; [:: Num 3; Num 4]] =
  Ok [:: [:: Num 5]; [:: Num 0]].
Proof.
rewrite /TemporalLoss.compute_loss (@reshape_rows_pairs_even _ 1) //.
rewrite /bind /torch_diff /tmap2 [pairmap _ _ _]/= /tmap2S /=.
fnum; rewrite !vector_norm2; fnum; rewrite !fsqrt_num; try lra.
have -> : ((3 - 0) * (3 - 0) + (4 - 0) * (4 - 0) = 5 * 5)%R by lra.
have -> : ((3 - 3) * (3 - 3) + (4 - 4) * (4 - 4) = 0 * 0)%R by lra.
by rewrite !sqrt_square; try lra.
Qed.

(** C7: on predictions of shape (batch, 2K) with at least two frames,
    [TemporalLoss.compute_loss] returns a tensor of shape (batch - 1, K)
    whose entry [(i, k)] is the Euclidean norm of the difference between
    frame [i + 1] and frame [i] of keypoint [k], the pair of columns [2k] and
    [2k + 1].  For one keypoint at (0,0), (3,4), (3,4) it is [[5], [0]]. *)
Theorem temporal_compute_loss :
  (forall (predictions : tensor2) (K : nat),
     1 < size predictions ->
     all (fun row => size row == K.*2) predictions ->
     exists loss : tensor2,
       [/\ TemporalLoss.compute_loss predictions = Ok loss,
           size loss = (size predictions).-1,
           all (fun row => size row == K) loss
         & forall i k : nat, i < (size predictions).-1 -> k < K ->
           let p := fun r c => nth NaN (nth [::] predictions r) c in
           nth NaN (nth [::] loss i) k =
           fsqrt (fadd (fsq (fsub (p i.+1 k.*2) (p i k.*2)))
                       (fsq (fsub (p i.+1 k.*2.+1) (p i k.*2.+1))))]) /\
  TemporalLoss.compute_loss
    [:: [:: Num 0; Num 0]; [:: Num 3; Num 4]; [:: Num 3; Num 4]] =
  Ok [:: [:: Num 5]; [:: Num 0]].
Proof.
split; last exact: temporal_3_4_5.
case=> [|row0 rows] // K; rewrite [size (_ :: _)]/= ltnS => rows0 sz.
set f := fun prev next : tensor1 => tmap2 fsub next prev.
have dsz : all (fun row => size row == K.*2) (pairmap f row0 rows).
  exact: torch_diff_sizes.
have d0 : 0 < size (pairmap f row0 rows) by rewrite size_pairmap.
exists [seq [seq vector_norm xy | xy <- reshape (nseq K 2) row]
       | row <- pairmap f row0 rows]; split.
- rewrite /TemporalLoss.compute_loss /torch_diff.
  by rewrite (reshape_rows_pairs_even d0 dsz) /bind -map_comp.
- by rewrite size_map size_pairmap.
- rewrite all_map; apply/(all_nthP [::]) => i _ /=.
  by rewrite size_map size_reshape size_nseq.
- move=> i k; rewrite [(size (_ :: _)).-1]/= => irows kK p.
  have srow r : r < (size rows).+1 -> size (nth [::] (row0 :: rows) r) = K.*2.
    by move=> rlt; apply/eqP; exact: (elimT (all_nthP [::]) sz r rlt).
  have k2 : k.*2.+1 < K.*2 by rewrite -doubleS leq_double.
  have si1 : size (nth [::] rows i) = K.*2 by exact: (srow i.+1).
  have si : size (nth [::] (row0 :: rows) i) = K.*2.
    by apply: srow; exact: ltnW.
  have sd : size (f (nth [::] (row0 :: rows) i) (nth [::] rows i)) = K.*2.
    exact: row_diff_size.
  rewrite (nth_map [::]) ?size_pairmap // (nth_pairmap [::]) //.
  rewrite (norm_rows_nth sd kK) /f !row_diff_nth ?si1 ?si //.
  exact: ltnW.
Qed.


Lemma temporal_compute_loss_witness :
  let predictions : tensor2 :=
    [:: [:: Num 0; Num 0]; [:: Num 3; Num 4]; [:: Num 3; Num 4]] in
  exists loss : tensor2,
    [/\ TemporalLoss.compute_loss predictions = Ok loss,
        size loss = 2,
        all (fun row => size row == 1) loss
      & forall i k : nat, i < 2 -> k < 1 ->
        let p := fun r c => nth NaN (nth [::] predictions r) c in
        nth NaN (nth [::] loss i) k =
        fsqrt (fadd (fsq (fsub (p i.+1 k.*2) (p i k.*2)))
                    (fsq (fsub (p i.+1 k.*2.+1) (p i k.*2.+1))))].
Proof.
move=> predictions.
apply: (proj1 temporal_compute_loss predictions 1).
- reflexivity.
- reflexivity.
Defined.

(** ** The masking path of the RMSE loss *)

Lemma mask_all (A : Type) (m : bitseq) (s : seq A) :
  all id m -> size s <= size m -> mask m s = s.
Proof.
by elim: m s => [|b m IH] [|x s] //= /andP [-> bm]; rewrite ltnS => /(IH _ bm) ->.
Qed.

(** C5, as the claim has it, fails: with two NaN targets the RMSE call
    returns a number, the weighted error of the one keypoint that is left,
    whereas [compute_loss] on the full batch has a NaN entry and a NaN mean. *)
Lemma rmse_call_masks_counterexample :
  let targets : tensor2 := [:: [:: NaN; NaN; Num 1; Num 1]] in
  let predictions : tensor2 := [:: [:: Num 5; Num 5; Num 4; Num 5]] in
  let self := RegressionRMSELoss.init (Num 0) (Num 0) in
  [/\ RegressionMSELoss.remove_nans targets predictions =
        Ok ([:: Num 1; Num 1], [:: Num 4; Num 5]),
      exists logs : seq log_dict,
        RegressionRMSELoss.call self targets predictions (Some train) =
        Ok (Num (sqrt (25 / 2) / 2), logs)
    & (full <- RegressionRMSELoss.compute_loss
                 (flatten targets) (flatten predictions) ;;
       Loss.reduce_loss self full "mean") = Ok NaN].
Proof.
move=> targets predictions self.
have rn : RegressionMSELoss.remove_nans targets predictions =
          Ok ([:: Num 1; Num 1], [:: Num 4; Num 5]).
  by have [-> _ _ _ _] := @remove_nans_masked targets predictions erefl.
have nan_full :
    (full <- RegressionRMSELoss.compute_loss
               (flatten targets) (flatten predictions) ;;
     Loss.reduce_loss self full "mean") = Ok NaN.
  by rewrite (@rmse_compute_loss_even 2).
split=> //.
  have w : Loss.weight self = Num (1 / 2).
    exact: weight_0.
  have cl : RegressionRMSELoss.compute_loss [:: Num 1; Num 1]
              [:: Num 4; Num 5] = Ok [:: Num (sqrt (25 / 2))].
    rewrite (@rmse_compute_loss_even 1) // rmse_rows_cons.
    rewrite torch_mean2; try exact: representable_fsq.
    fnum; rewrite fdiv_num; try in_range; try lra.
    rewrite fsqrt_num; try lra.
    by congr (Ok [:: Num (sqrt _)]); lra.
  have [lo hi] := sqrt_12_5.
  rewrite /RegressionRMSELoss.call /RegressionMSELoss.call rn /bind cl.
  rewrite reduce_loss_mean elems1 torch_mean1; try in_range.
  rewrite w /Loss.log_loss fmul_num; try in_range.
  by eexists; congr (Ok (Num _, _)); lra.
Qed.

(** C5, amended: the RMSE loss inherits [__call__] and [remove_nans], so its
    [compute_loss] receives the two flat sequences that [remove_nans]
    returns: the targets that are not NaN and the predictions at the same
    positions.  They are the (flattened) full batch when no target is
    NaN. *)
Theorem rmse_call_masks (self : Loss.t) (targets predictions : tensor2)
    (stage : option Stage) :
  same_shape targets predictions ->
  let valid := [seq ~~ isnan x | x <- flatten targets] in
  RegressionRMSELoss.call self targets predictions stage =
    (elementwise_loss <-
       RegressionRMSELoss.compute_loss
         (mask valid (flatten targets)) (mask valid (flatten predictions)) ;;
     scalar_loss <- Loss.reduce_loss self elementwise_loss "mean" ;;
     logs <- Loss.log_loss self scalar_loss stage ;;
     Ok (fmul (Loss.weight self) scalar_loss, logs)) /\
  (~~ has isnan (flatten targets) ->
   mask valid (flatten targets) = flatten targets /\
   mask valid (flatten predictions) = flatten predictions).
Proof.
move=> same valid; have [rn _ _ _ _] := remove_nans_masked same.
split; first by rewrite /RegressionRMSELoss.call /RegressionMSELoss.call rn.
move=> nonan.
have allv : all id valid by rewrite /valid all_map; move: nonan; rewrite -all_predC.
have sz := same_shape_size_flatten same.
by split; apply: mask_all; rewrite // size_map // sz.
Qed.

Lemma rmse_call_masks_witness :
  let targets : tensor2 := [:: [:: NaN; NaN; Num 1; Num 1]] in
  let predictions : tensor2 := [:: [:: Num 5; Num 5; Num 4; Num 5]] in
  let self := RegressionRMSELoss.init (Num 0) (Num 0) in
  RegressionRMSELoss.call self targets predictions (Some train) =
    (elementwise_loss <-
       RegressionRMSELoss.compute_loss [:: Num 1; Num 1] [:: Num 4; Num 5] ;;
     scalar_loss <- Loss.reduce_loss self elementwise_loss "mean" ;;
     logs <- Loss.log_loss self scalar_loss (Some train) ;;
     Ok (fmul (Loss.weight self) scalar_loss, logs)).
Proof.
move=> targets predictions self.
exact: (proj1 (@rmse_call_masks self targets predictions (Some train) erefl)).
Defined.

(** ** Which calls rectify *)

(** An elementwise loss of [0.25] under [epsilon = 1]: what the unimodal
    call returns and what rectifying would have given. *)
Lemma unimodal_example :
  let self :=
    {| UnimodalLoss.base := Loss.mk (Num 1) (Num 0) "unimodal_mse";
       UnimodalLoss.original_image_height := 2;
       UnimodalLoss.original_image_width := 2;
       UnimodalLoss.downsampled_image_height := 1;
       UnimodalLoss.downsampled_image_width := 1;
       UnimodalLoss.wasserstein_loss := None |} in
  let heatmaps_ideal : tensor4 := [:: [:: [:: [:: Num 0]]]] in
  let generate_heatmaps :=
    fun (_ : tensor3) (_ _ : Z) (_ : Z * Z) => Ok heatmaps_ideal in
  let heatmaps_pred : tensor4 := [:: [:: [:: [:: Num (1 / 2)]]]] in
  let elementwise_loss : tensor4 := [:: [:: [:: [:: Num (1 / 4)]]]] in
  [/\ UnimodalLoss.compute_loss self heatmaps_ideal heatmaps_pred =
        Ok (inl elementwise_loss),
      Loss.rectify_epsilon (UnimodalLoss.base self) elementwise_loss =
        [:: [:: [:: [:: Num 0]]]],
      UnimodalLoss.call generate_heatmaps self [:: [:: Num 1; Num 1]]
        heatmaps_pred (Some train) =
      Ok (Num (1 / 8),
          [:: {| name := "train_unimodal_mse_loss"; value := Num (1 / 4);
                 prog_bar := Some true |};
              {| name := "unimodal_mse_weight"; value := Num (1 / 2);
                 prog_bar := None |}])
    & (scalar_loss <-
         Loss.reduce_loss (UnimodalLoss.base self)
           (Loss.rectify_epsilon (UnimodalLoss.base self) elementwise_loss)
           "mean" ;;
       Ok (fmul (Loss.weight (UnimodalLoss.base self)) scalar_loss)) =
      Ok (Num 0)].
Proof.
move=> self heatmaps_ideal generate_heatmaps heatmaps_pred elementwise_loss.
have w : Loss.weight (UnimodalLoss.base self) = Num (1 / 2).
  exact: weight_0.
have cl : UnimodalLoss.compute_loss self heatmaps_ideal heatmaps_pred =
          Ok (inl elementwise_loss).
  rewrite /UnimodalLoss.compute_loss /= /mse_loss /= /tmap2S /= /tmap2S /=.
  rewrite /tmap2S /= /tmap2S /=.
  rewrite overflow_num; try in_range.
  rewrite /= overflow_num; try in_range.
  by have -> : ((0 - 1 / 2) * (0 - 1 / 2) = 1 / 4)%R by field.
have re : Loss.rectify_epsilon (UnimodalLoss.base self) elementwise_loss =
          [:: [:: [:: [:: Num 0]]]].
  rewrite /Loss.rectify_epsilon /masked_fill /= /tmapS /= /tmapS /= /tmapS /=.
  by rewrite /tmapS /=; case: (Rlt_dec (1 / 4) 1) => // ?; lra.
split=> //.
- rewrite /UnimodalLoss.call [size _ == size _]/= [reshape_rows_pairs _]/=.
  rewrite /bind /generate_heatmaps cl.
  rewrite reduce_loss_mean [elems _]/= torch_mean1; try in_range.
  rewrite /Loss.log_loss w fmul_num; try in_range.
  by have -> : (1 / 2 * (1 / 4) = 1 / 8)%R by lra.
- rewrite re reduce_loss_mean [elems _]/= torch_mean1; try in_range.
  rewrite w /bind fmul_num; try in_range.
  by congr (Ok (Num _)); lra.
Qed.

(** C2, as the claim has it, fails for the unimodal loss: with
    [epsilon = 1] and an elementwise loss of [0.25], below epsilon, the call
    returns the weighted mean [0.5 * 0.25] of the loss as it is, whereas the
    weighted mean of the rectified loss is zero. *)
Lemma unimodal_call_counterexample :
  let self :=
    {| UnimodalLoss.base := Loss.mk (Num 1) (Num 0) "unimodal_mse";
       UnimodalLoss.original_image_height := 2;
       UnimodalLoss.original_image_width := 2;
       UnimodalLoss.downsampled_image_height := 1;
       UnimodalLoss.downsampled_image_width := 1;
       UnimodalLoss.wasserstein_loss := None |} in
  let heatmaps_ideal : tensor4 := [:: [:: [:: [:: Num 0]]]] in
  let generate_heatmaps :=
    fun (_ : tensor3) (_ _ : Z) (_ : Z * Z) => Ok heatmaps_ideal in
  let heatmaps_pred : tensor4 := [:: [:: [:: [:: Num (1 / 2)]]]] in
  let elementwise_loss : tensor4 := [:: [:: [:: [:: Num (1 / 4)]]]] in
  [/\ UnimodalLoss.compute_loss self heatmaps_ideal heatmaps_pred =
        Ok (inl elementwise_loss),
      Loss.rectify_epsilon (UnimodalLoss.base self) elementwise_loss =
        [:: [:: [:: [:: Num 0]]]],
      exists logs : seq log_dict,
        UnimodalLoss.call generate_heatmaps self [:: [:: Num 1; Num 1]]
          heatmaps_pred (Some train) = Ok (Num (1 / 8), logs),
      (scalar_loss <-
         Loss.reduce_loss (UnimodalLoss.base self)
           (Loss.rectify_epsilon (UnimodalLoss.base self) elementwise_loss)
           "mean" ;;
       Ok (fmul (Loss.weight (UnimodalLoss.base self)) scalar_loss)) =
      Ok (Num 0)
    & Num (1 / 8) <> Num 0].
Proof.
move=> self heatmaps_ideal generate_heatmaps heatmaps_pred elementwise_loss.
have [cl re call_eq rectified] := unimodal_example.
split=> //; first by eexists; exact: call_eq.
by case; lra.
Qed.

Lemma bind_ok (A B : Type) (m : result A) (k : A -> result B) (b : B) :
  bind m k = Ok b -> exists2 a : A, m = Ok a & k a = Ok b.
Proof. by case: m => [a|e] //= kb; exists a. Qed.

(** The value a call returns once its scalar loss is known. *)
Lemma call_tail_ok (self : Loss.t) (scalar_loss : tfloat)
    (stage : option Stage) (v : tfloat) (logs : seq log_dict) :
  (logs <- Loss.log_loss self scalar_loss stage ;;
   Ok (fmul (Loss.weight self) scalar_loss, logs)) = Ok (v, logs) ->
  v = fmul (Loss.weight self) scalar_loss.
Proof. by case: (Loss.log_loss _ _ _) => [l|e] //= [<-]. Qed.

(** C2, amended: the temporal and the PCA call rectify the elementwise
    loss of [compute_loss] before they take its mean: the elements below
    epsilon count as zero.  The unimodal call does not, no more than the
    heatmap and the regression calls: they return the weighted mean of the
    elementwise loss as [compute_loss] returned it, and what they return
    does not depend on epsilon. *)
Theorem rectify_epsilon_usage :
  (forall self keypoints_pred stage v logs,
     TemporalLoss.call self keypoints_pred stage = Ok (v, logs) ->
     exists2 loss : tensor2,
       TemporalLoss.compute_loss keypoints_pred = Ok loss &
       v = fmul (Loss.weight self)
             (torch_mean [seq if flt x (Loss.epsilon self) then Num 0 else x
                         | x <- elems loss])) /\
  (forall reproj fmt self keypoints_pred stage v logs,
     PCALoss.call reproj fmt self keypoints_pred stage = Ok (v, logs) ->
     exists (formatted : tensor2) (loss : tensor2),
       PCALoss.compute_loss reproj self formatted = Ok loss /\
       v = fmul (Loss.weight (PCALoss.base self))
             (torch_mean
                [seq if flt x (Loss.epsilon (PCALoss.base self)) then Num 0
                     else x
                | x <- elems loss])) /\
  (forall generate_heatmaps base h w dh dw wl keypoints_pred heatmaps_pred
          stage,
     let self := UnimodalLoss.mk base h w dh dw wl in
     (forall v logs,
        UnimodalLoss.call generate_heatmaps self keypoints_pred heatmaps_pred
          stage = Ok (v, logs) ->
        exists (heatmaps_ideal : tensor4) (loss : tensor4 + tensor1),
          UnimodalLoss.compute_loss self heatmaps_ideal heatmaps_pred =
            Ok loss /\
          v = fmul (Loss.weight base) (torch_mean (unimodal_elems loss))) /\
     (forall e : tfloat,
        UnimodalLoss.call generate_heatmaps
          (UnimodalLoss.mk (Loss.set_epsilon base e) h w dh dw wl)
          keypoints_pred heatmaps_pred stage =
        UnimodalLoss.call generate_heatmaps self keypoints_pred heatmaps_pred
          stage)) /\
  (forall (T : Type) (tensorT : Tensor T) compute_loss self targ pred stage,
     (forall v logs,
        @HeatmapLoss.call T tensorT compute_loss self targ pred stage =
          Ok (v, logs) ->
        exists (clean : tensor3 * tensor3) (loss : T),
          [/\ HeatmapLoss.remove_nans targ pred = Ok clean,
              compute_loss clean.1 clean.2 = Ok loss
            & v = fmul (Loss.weight self) (torch_mean (elems loss))]) /\
     (forall e : tfloat,
        HeatmapLoss.call compute_loss (Loss.set_epsilon self e) targ pred
          stage =
        HeatmapLoss.call compute_loss self targ pred stage)) /\
  (forall compute_loss self targ pred stage,
     (forall v logs,
        RegressionMSELoss.call compute_loss self targ pred stage =
          Ok (v, logs) ->
        exists (clean : tensor1 * tensor1) (loss : tensor1),
          [/\ RegressionMSELoss.remove_nans targ pred = Ok clean,
              compute_loss clean.1 clean.2 = Ok loss
            & v = fmul (Loss.weight self) (torch_mean (elems loss))]) /\
     (forall e : tfloat,
        RegressionMSELoss.call compute_loss (Loss.set_epsilon self e) targ
          pred stage =
        RegressionMSELoss.call compute_loss self targ pred stage)).
Proof.
split; [|split; [|split; [|split]]].
- move=> self keypoints_pred stage v logs; rewrite /TemporalLoss.call => H.
  have [loss cl {H}] := bind_ok H.
  rewrite reduce_loss_mean elems_rectify_epsilon /bind => /call_tail_ok ->.
  by exists loss.
- move=> reproj fmt self keypoints_pred stage v logs.
  rewrite /PCALoss.call => H.
  have [formatted _ {}H] := bind_ok H; have [loss cl {H}] := bind_ok H.
  rewrite reduce_loss_mean elems_rectify_epsilon /bind => /call_tail_ok ->.
  by exists formatted, loss.
- move=> generate_heatmaps base h w dh dw wl keypoints_pred heatmaps_pred
    stage self; split=> [v logs|e //].
  rewrite /UnimodalLoss.call; case: ifP => // _ H.
  have [kp _ {}H] := bind_ok H; have [heatmaps_ideal _ {}H] := bind_ok H.
  have [loss cl {H}] := bind_ok H.
  have -> : match loss with
            | inl loss0 | inr loss0 =>
                Loss.reduce_loss (UnimodalLoss.base self) loss0 "mean"
            end = Ok (torch_mean (unimodal_elems loss)) by case: loss {cl}.
  rewrite /bind => /call_tail_ok ->.
  by exists heatmaps_ideal, loss.
- move=> T tensorT compute_loss self targ pred stage; split=> [v logs|e //].
  rewrite /HeatmapLoss.call => H.
  have [clean rn {}H] := bind_ok H; have [loss cl {H}] := bind_ok H.
  rewrite reduce_loss_mean /bind => /call_tail_ok ->.
  by exists clean, loss.
- move=> compute_loss self targ pred stage; split=> [v logs|e //].
  rewrite /RegressionMSELoss.call => H.
  have [clean rn {}H] := bind_ok H; have [loss cl {H}] := bind_ok H.
  rewrite reduce_loss_mean /bind => /call_tail_ok ->.
  by exists clean, loss.
Qed.

Lemma temporal_call_3_4_5 :
  let self := TemporalLoss.init (Num 1) (Num 0) in
  TemporalLoss.call self
    [:: [:: Num 0; Num 0]; [:: Num 3; Num 4]; [:: Num 3; Num 4]] (Some train) =
  Ok (Num (5 / 4),
      [:: {| name := "train_temporal_loss"; value := Num (5 / 2);
             prog_bar := Some true |};
          {| name := "temporal_weight"; value := Num (1 / 2);
             prog_bar := None |}]).
Proof.
move=> self.
have w : Loss.weight self = Num (1 / 2).
  exact: weight_0.
rewrite /TemporalLoss.call temporal_3_4_5 /bind reduce_loss_mean.
rewrite elems_rectify_epsilon [elems _]/= [Loss.epsilon _]/=.
rewrite !map_cons (@flt_numF 5 1); first lra.
rewrite (@flt_num 0 1); first lra.
rewrite torch_mean2; try exact: representable0.
fnum; rewrite fdiv_num; try in_range; try lra.
have -> : ((5 + 0) / 2 = 5 / 2)%R by lra.
rewrite /Loss.log_loss w fmul_num; try in_range.
have -> : (1 / 2 * (5 / 2) = 5 / 4)%R by lra.
by [].
Qed.

Lemma rectify_epsilon_usage_witness :
  (let self := TemporalLoss.init (Num 1) (Num 0) in
   let keypoints_pred : tensor2 :=
     [:: [:: Num 0; Num 0]; [:: Num 3; Num 4]; [:: Num 3; Num 4]] in
   exists2 loss : tensor2,
     TemporalLoss.compute_loss keypoints_pred = Ok loss &
     Num (5 / 4) =
     fmul (Loss.weight self)
       (torch_mean [seq if flt x (Loss.epsilon self) then Num 0 else x
                   | x <- elems loss])) /\
  (let base := Loss.mk (Num 1) (Num 0) "unimodal_mse" in
   let self := UnimodalLoss.mk base 2 2 1 1 None in
   let heatmaps_pred : tensor4 := [:: [:: [:: [:: Num (1 / 2)]]]] in
   exists (heatmaps_ideal : tensor4) (loss : tensor4 + tensor1),
     UnimodalLoss.compute_loss self heatmaps_ideal heatmaps_pred = Ok loss /\
     Num (1 / 8) = fmul (Loss.weight base) (torch_mean (unimodal_elems loss))).
Proof.
split.
- move=> self keypoints_pred.
  exact: (proj1 rectify_epsilon_usage self keypoints_pred (Some train) _ _
            temporal_call_3_4_5).
- move=> base self heatmaps_pred.
  have [_ _ call_eq _] := unimodal_example.
  have [_ [_ [unimodal _]]] := rectify_epsilon_usage.
  exact: (proj1 (unimodal _ base 2%Z 2%Z 1%Z 1%Z None _ heatmaps_pred _)
            _ _ call_eq).
Defined.

(** ** The weight law *)

Lemma ln_2_range : (0 < ln 2 < 1)%R.
Proof.
have lo := ln_lt_2.
have hi : (ln 2 < ln (exp 1))%R.
  by apply: ln_increasing; first lra; have := @exp_ineq1 1; lra.
by rewrite ln_exp in hi; lra.
Qed.

(** What a call returns once its scalar loss is known. *)
Lemma call_tail_weighted (self : Loss.t) (xs : seq tfloat)
    (stage : option Stage) (v : tfloat) (logs : seq log_dict) :
  (logs <- Loss.log_loss self (torch_mean xs) stage ;;
   Ok (fmul (Loss.weight self) (torch_mean xs), logs)) = Ok (v, logs) ->
  weighted_mean self xs stage v logs.
Proof. by case: stage => [st|] //= [<- <-]. Qed.

(** The claim C1 fails for a large finite [log_weight]: at
    [log_weight = 100] the exponential overflows, so that the weight is
    zero, which is not a strictly positive number. *)
Lemma weight_law_counterexample :
  let self := Loss.init (Num 0) (Num 100) in
  Loss.weight self = Num 0 /\
  ~ (exists w : R, Loss.weight self = Num w /\ (0 < w)%R).
Proof.
move=> self; have w0 : Loss.weight self = Num 0 by exact: weight_100.
by split=> //; rewrite w0; case=> w [[<-]]; lra.
Qed.

(** C1, amended: the weight of a loss whose [log_weight] lies between [-80]
    and [80] is [1 / (2 * exp log_weight)], a strictly positive number:
    [0.5] for [log_weight = 0] and [0.25] for [log_weight = ln 2].  A
    [__call__] returns exactly when its steps go through, and it then
    returns the weight times the mean of the elementwise loss that
    [compute_loss] returned for its (cleaned, formatted) inputs, rectified in
    the temporal and the PCA loss, and logs that mean next to the weight. *)
Theorem weight_law :
  (forall (self : Loss.t) (r : R),
     Loss.log_weight self = Num r -> (-80 <= r <= 80)%R ->
     Loss.weight self = Num (1 / (2 * exp r)) /\ (0 < 1 / (2 * exp r))%R) /\
  (forall self : Loss.t, Loss.log_weight self = Num 0 ->
     Loss.weight self = Num (1 / 2)) /\
  (forall self : Loss.t, Loss.log_weight self = Num (ln 2) ->
     Loss.weight self = Num (1 / 4)) /\
  (forall (T : Type) (tensorT : Tensor T) compute_loss self targ pred stage
          v logs,
     @HeatmapLoss.call T tensorT compute_loss self targ pred stage =
       Ok (v, logs) <->
     exists (clean : tensor3 * tensor3) (loss : T),
       [/\ HeatmapLoss.remove_nans targ pred = Ok clean,
           compute_loss clean.1 clean.2 = Ok loss
         & weighted_mean self (elems loss) stage v logs]) /\
  (forall reproj fmt self keypoints_pred stage v logs,
     PCALoss.call reproj fmt self keypoints_pred stage = Ok (v, logs) <->
     exists (formatted : tensor2) (loss : tensor2),
       [/\ (Loss.loss_name (PCALoss.base self) = "pca_singleview"%string /\
            formatted = keypoints_pred) \/
           (Loss.loss_name (PCALoss.base self) = "pca_multiview"%string /\
            exists2 pairs : tensor3,
              reshape_rows_pairs keypoints_pred = Ok pairs &
              fmt pairs (PCALoss.mirrored_column_matches (PCALoss.pca self)) =
                Ok formatted),
           PCALoss.compute_loss reproj self formatted = Ok loss
         & weighted_mean (PCALoss.base self)
             (elems (Loss.rectify_epsilon (PCALoss.base self) loss))
             stage v logs]) /\
  (forall self keypoints_pred stage v logs,
     TemporalLoss.call self keypoints_pred stage = Ok (v, logs) <->
     exists2 loss : tensor2,
       TemporalLoss.compute_loss keypoints_pred = Ok loss &
       weighted_mean self (elems (Loss.rectify_epsilon self loss))
         stage v logs) /\
  (forall generate_heatmaps self keypoints_pred heatmaps_pred stage v logs,
     UnimodalLoss.call generate_heatmaps self keypoints_pred heatmaps_pred
       stage = Ok (v, logs) <->
     exists (pairs : tensor3) (heatmaps_ideal : tensor4)
            (loss : tensor4 + tensor1),
       [/\ size keypoints_pred = size heatmaps_pred,
           reshape_rows_pairs keypoints_pred = Ok pairs,
           generate_heatmaps pairs
             (UnimodalLoss.original_image_height self)
             (UnimodalLoss.original_image_width self)
             (UnimodalLoss.downsampled_image_height self,
              UnimodalLoss.downsampled_image_width self) = Ok heatmaps_ideal,
           UnimodalLoss.compute_loss self heatmaps_ideal heatmaps_pred =
             Ok loss
         & weighted_mean (UnimodalLoss.base self) (unimodal_elems loss)
             stage v logs]) /\
  (forall compute_loss self targ pred stage v logs,
     RegressionMSELoss.call compute_loss self targ pred stage = Ok (v, logs) <->
     exists (clean : tensor1 * tensor1) (loss : tensor1),
       [/\ RegressionMSELoss.remove_nans targ pred = Ok clean,
           compute_loss clean.1 clean.2 = Ok loss
         & weighted_mean self (elems loss) stage v logs]).
Proof.
split; [|split; [|split; [|split; [|split; [|split; [|split]]]]]].
- move=> self r lw range; split; first exact: weight_num.
  by have [_ []] := weight_in_range range.
- exact: weight_0.
- move=> self lw; have [lo hi] := ln_2_range.
  rewrite (weight_num lw); first lra.
  by rewrite exp_ln; first lra; congr (Num _); lra.
- move=> T tensorT compute_loss self targ pred stage v logs.
  rewrite /HeatmapLoss.call; split=> [H|[clean [loss [-> cl [-> lg _]]]]].
    have [clean rn {}H] := bind_ok H; have [loss cl {H}] := bind_ok H.
    rewrite reduce_loss_mean /bind => /call_tail_weighted tail.
    by exists clean, loss.
  by rewrite /bind cl reduce_loss_mean lg.
- move=> reproj fmt self keypoints_pred stage v logs.
  rewrite /PCALoss.call; split=> [H|[formatted [loss [fm cl [-> lg _]]]]].
    have [formatted fm {}H] := bind_ok H; have [loss cl {H}] := bind_ok H.
    rewrite reduce_loss_mean /bind => /call_tail_weighted tail.
    exists formatted, loss; split=> //.
    move: fm; case: (String.eqb_spec _ "pca_multiview") => [multi|_].
      move=> H; have [pairs rs fm] := bind_ok H.
      by right; split=> //; exists pairs.
    by case: (String.eqb_spec _ "pca_singleview") => [single [<-]|] //; left.
  have -> : (if String.eqb (Loss.loss_name (PCALoss.base self)) "pca_multiview"
             then
               keypoints_pred0 <- reshape_rows_pairs keypoints_pred ;;
               fmt keypoints_pred0
                 (PCALoss.mirrored_column_matches (PCALoss.pca self))
             else
               if String.eqb (Loss.loss_name (PCALoss.base self))
                    "pca_singleview"
               then Ok keypoints_pred
               else Raise NotImplementedError) = Ok formatted.
    by case: fm => [[-> ->]|[-> [pairs -> fm]]] //=.
  by rewrite /bind cl reduce_loss_mean lg.
- move=> self keypoints_pred stage v logs.
  rewrite /TemporalLoss.call; split=> [H|[loss -> [-> lg _]]].
    have [loss cl {H}] := bind_ok H.
    rewrite reduce_loss_mean /bind => /call_tail_weighted tail.
    by exists loss.
  by rewrite /bind reduce_loss_mean lg.
- move=> generate_heatmaps self keypoints_pred heatmaps_pred stage v logs.
  have red (loss : tensor4 + tensor1) :
      match loss with
      | inl loss0 | inr loss0 =>
          Loss.reduce_loss (UnimodalLoss.base self) loss0 "mean"
      end = Ok (torch_mean (unimodal_elems loss)) by case: loss.
  rewrite /UnimodalLoss.call; split.
    case: eqP => // sz H.
    have [pairs rs {}H] := bind_ok H.
    have [heatmaps_ideal gh {}H] := bind_ok H.
    have [loss cl {H}] := bind_ok H.
    rewrite red /bind => /call_tail_weighted tail.
    by exists pairs, heatmaps_ideal, loss.
  move=> [pairs [heatmaps_ideal [loss [-> -> gh cl [-> lg _]]]]].
  by rewrite eqxx /bind gh cl red lg.
- move=> compute_loss self targ pred stage v logs.
  rewrite /RegressionMSELoss.call; split=> [H|[clean [loss [-> cl [-> lg _]]]]].
    have [clean rn {}H] := bind_ok H; have [loss cl {H}] := bind_ok H.
    rewrite reduce_loss_mean /bind => /call_tail_weighted tail.
    by exists clean, loss.
  by rewrite /bind cl reduce_loss_mean lg.
Qed.

Lemma weight_law_witness :
  let keypoints_pred : tensor2 :=
    [:: [:: Num 0; Num 0]; [:: Num 3; Num 4]; [:: Num 3; Num 4]] in
  let self := TemporalLoss.init (Num 1) (Num 0) in
  [/\ Loss.weight (TemporalLoss.init (Num 0) (Num 1)) =
        Num (1 / (2 * exp 1)) /\
      (0 < 1 / (2 * exp 1))%R,
      Loss.weight (TemporalLoss.init (Num 0) (Num 0)) = Num (1 / 2),
      Loss.weight (TemporalLoss.init (Num 0) (Num (ln 2))) = Num (1 / 4)
    & exists2 loss : tensor2,
        TemporalLoss.compute_loss keypoints_pred = Ok loss &
        Num (5 / 4) =
        fmul (Loss.weight self)
          (torch_mean (elems (Loss.rectify_epsilon self loss)))].
Proof.
move=> keypoints_pred self.
have [finite [at0 [atln2 [_ [_ [temporal _]]]]]] := weight_law.
split.
- apply: (finite (TemporalLoss.init (Num 0) (Num 1)) 1%R).
  + reflexivity.
  + lra.
- exact: (at0 (TemporalLoss.init (Num 0) (Num 0)) erefl).
- exact: (atln2 (TemporalLoss.init (Num 0) (Num (ln 2))) erefl).
- have [loss cl [v_eq _ _]] :=
    proj1 (temporal self keypoints_pred (Some train) _ _) temporal_call_3_4_5.
  by exists loss.
Defined.

(** * Further properties of the losses *)

(** ** The weight over the whole range of [log_weight] *)

Lemma overflow_pos (r : R) :
  (0 < r)%R -> overflow r = PInf \/ overflow r = Num r.
Proof.
move=> r0; have M0 : (0 < float_overflow)%R by in_range.
rewrite /overflow; case: (Rle_dec float_overflow r) => ?; first by left.
by case: (Rle_dec r (- float_overflow)) => ?; [lra | right].
Qed.

Lemma fmul_2_inf : fmul (Num 2) PInf = PInf.
Proof. by rewrite /fmul /inf_times; case: (Rlt_dec 0 2) => // ?; lra. Qed.

Lemma fdiv_1_pos (y : R) :
  (0 < y)%R ->
  fdiv (Num 1) (Num y) = PInf \/
  exists2 w : R, fdiv (Num 1) (Num y) = Num w & (0 < w)%R.
Proof.
move=> y0; rewrite /fdiv; case: (Req_dec_T y 0) => ?; first lra.
have pos : (0 < 1 / y)%R by apply: Rdiv_lt_0_compat; lra.
by case: (overflow_pos pos) => ->; [left | right; exists (1 / y)%R].
Qed.

(** The weight is NaN for a NaN [log_weight]; otherwise it is the positive
    infinity or a number that is not negative. *)
Lemma weight_cases (self : Loss.t) :
  if isnan (Loss.log_weight self) then Loss.weight self = NaN
  else Loss.weight self = PInf \/
       exists2 w : R, Loss.weight self = Num w & (0 <= w)%R.
Proof.
rewrite /Loss.weight; case: (Loss.log_weight self) => [r|||];
  rewrite /isnan /fexp //.
- have e0 := exp_pos r.
  case: (overflow_pos e0) => ->.
    by rewrite fmul_2_inf; right; exists 0%R => //; lra.
  have e2 : (0 < 2 * exp r)%R by lra.
  rewrite /fmul; case: (overflow_pos e2) => ->.
    by right; exists 0%R => //; lra.
  case: (fdiv_1_pos e2) => [->|[w -> w0]]; first by left.
  by right; exists w => //; lra.
- by rewrite fmul_2_inf; right; exists 0%R => //; lra.
- rewrite fmul_num; first by in_range.
  left; rewrite /fdiv; case: (Req_dec_T (2 * 0) 0) => ?; last lra.
  by case: (Rlt_dec 0 1) => // ?; lra.
Qed.

(** Over the whole range of [log_weight] the weight is never negative, and
    it is NaN only for a NaN [log_weight]; but it is zero from
    [log_weight = 100] on, where the exponential has overflowed, and
    infinite up to [log_weight = -100], where the division overflows. *)
Theorem weight_sign :
  (forall self : Loss.t,
     isnan (Loss.weight self) = isnan (Loss.log_weight self) /\
     not_negative (Loss.weight self)) /\
  (forall (self : Loss.t) (r : R),
     Loss.log_weight self = Num r -> (100 <= r)%R ->
     Loss.weight self = Num 0) /\
  (forall (self : Loss.t) (r : R),
     Loss.log_weight self = Num r -> (r <= -100)%R ->
     Loss.weight self = PInf) /\
  (forall self : Loss.t,
     Loss.log_weight self = PInf -> Loss.weight self = Num 0) /\
  (forall self : Loss.t,
     Loss.log_weight self = NInf -> Loss.weight self = PInf).
Proof.
have M0 : (0 < float_overflow)%R by in_range.
have M1 : (1 < float_overflow)%R by in_range.
split; [|split; [|split; [|split]]].
- move=> self; have := weight_cases self.
  case: (isnan (Loss.log_weight self)) => [->|[->|[w -> w0]]] //.
  by split=> //; rewrite /not_negative flt_numF.
- move=> self r lw r100.
  have big : (float_overflow <= exp r)%R.
    by have := exp_100; have := exp_le r100; lra.
  rewrite /Loss.weight lw /fexp /overflow.
  case: (Rle_dec float_overflow (exp r)) => // ?.
  by rewrite fmul_2_inf.
- move=> self r lw r100.
  have e0 := exp_pos r.
  have small : (exp r * (2 * float_overflow) <= 1)%R.
    have le : (exp r <= exp (- 100))%R by exact: exp_le.
    have e100 := exp_pos 100.
    have inv : (exp (- 100) * exp 100 = 1)%R.
      rewrite -exp_plus.
      have -> : (- 100 + 100 = 0)%R by lra.
      exact: exp_0.
    have := exp_100_twice; nra.
  have lt1 : (2 * exp r < 1)%R by nra.
  rewrite /Loss.weight lw /fexp overflow_num; first by split; lra.
  rewrite fmul_num; first by split; lra.
  rewrite /fdiv; case: (Req_dec_T (2 * exp r) 0) => ?; first lra.
  rewrite /overflow; case: (Rle_dec float_overflow (1 / (2 * exp r))) => //.
  case; apply: (Rmult_le_reg_r (2 * exp r)); first lra.
  have -> : (1 / (2 * exp r) * (2 * exp r) = 1)%R by field; lra.
  by nra.
- by move=> self lw; rewrite /Loss.weight lw /fexp fmul_2_inf.
- move=> self lw; rewrite /Loss.weight lw /fexp fmul_num; first by in_range.
  rewrite /fdiv; case: (Req_dec_T (2 * 0) 0) => ?; last lra.
  by case: (Rlt_dec 0 1) => // ?; lra.
Qed.

Lemma weight_sign_witness :
  Loss.weight (TemporalLoss.init (Num 0) (Num 100)) = Num 0 /\
  Loss.weight (TemporalLoss.init (Num 0) (Num (- 100))) = PInf.
Proof.
have [_ [big [small _]]] := weight_sign.
split.
- apply: (big _ 100%R).
  + reflexivity.
  + lra.
- apply: (small _ (- 100)%R).
  + reflexivity.
  + lra.
Defined.

(** ** Reduction methods *)

Lemma representable_torch_sum (xs : seq tfloat) : representable (torch_sum xs).
Proof.
by case: xs => [|x xs]; [exact: representable0 | exact: representable_fadd].
Qed.

(** [reduce_loss] raises [KeyError] exactly for the methods other than
    ["mean"] and ["sum"].  The sum of a tensor without elements is zero,
    where its mean is NaN; the mean is the sum divided by the number of
    elements, and for a tensor with elements whose sum is the number [s] it
    is the number [s / n]. *)
Theorem reduce_loss_methods (T : Type) (tensorT : Tensor T)
    (self : Loss.t) (loss : T) :
  [/\ forall method : string,
        Loss.reduce_loss self loss method = Raise KeyError <->
        method <> "mean"%string /\ method <> "sum"%string,
      elems loss = [::] ->
        Loss.reduce_loss self loss "sum" = Ok (Num 0) /\
        Loss.reduce_loss self loss "mean" = Ok NaN,
      forall s : tfloat,
        Loss.reduce_loss self loss "sum" = Ok s ->
        Loss.reduce_loss self loss "mean" =
          Ok (fdiv s (Num (INR (size (elems loss)))))
    & 0 < size (elems loss) ->
      forall s : R,
        Loss.reduce_loss self loss "sum" = Ok (Num s) ->
        Loss.reduce_loss self loss "mean" =
          Ok (Num (s / INR (size (elems loss))))].
Proof.
split.
- move=> method; rewrite /Loss.reduce_loss /Loss.reduce_methods_dict.
  case: (String.eqb_spec method "mean") => [->|nm]; first by split=> // -[].
  case: (String.eqb_spec method "sum") => [->|ns]; first by split=> // -[].
  by split.
- move=> empty; rewrite /Loss.reduce_loss /= empty; split=> //.
  by rewrite torch_mean_nil.
- by move=> s sum_s; rewrite reduce_loss_mean /torch_mean; case: sum_s => ->.
- move=> n0 s sum_s.
  have sum_eq : torch_sum (elems loss) = Num s by case: sum_s.
  have rep : (- float_overflow < s < float_overflow)%R.
    have : representable (torch_sum (elems loss)).
      exact: representable_torch_sum.
    by rewrite sum_eq.
  rewrite reduce_loss_mean /torch_mean sum_eq.
  have n1 : (1 <= INR (size (elems loss)))%R.
    by rewrite -[1%R]/(INR 1); apply: le_INR; apply/leP.
  have M0 : (0 < float_overflow)%R by in_range.
  rewrite fdiv_num //; first lra.
  have inv1 : (0 < / INR (size (elems loss)) <= 1)%R.
    split; first by apply: Rinv_0_lt_compat; lra.
    by rewrite -[X in (_ <= X)%R]Rinv_1; apply: Rinv_le_contravar; lra.
  by rewrite /Rdiv; split; nra.
Qed.

Lemma torch_sum_1_2 : torch_sum [:: Num 1; Num 2] = Num (1 + (2 + 0)).
Proof.
change (torch_sum [:: Num 1; Num 2])
  with (fadd (Num 1) (fadd (Num 2) (Num 0))).
by fnum.
Qed.

Lemma reduce_loss_methods_witness :
  let self := TemporalLoss.init (Num 0) (Num 0) in
  let loss : tensor1 := [:: Num 1; Num 2] in
  Loss.reduce_loss self loss "sum" = Ok (Num (1 + (2 + 0))) /\
  Loss.reduce_loss self loss "mean" =
    Ok (Num ((1 + (2 + 0)) / INR (size (elems loss)))).
Proof.
move=> self loss.
have sum_eq : Loss.reduce_loss self loss "sum" = Ok (Num (1 + (2 + 0))).
  rewrite /Loss.reduce_loss -[Loss.reduce_methods_dict "sum"]/(Some torch_sum).
  by rewrite elems1 /loss torch_sum_1_2.
split; first exact: sum_eq.
have [_ _ _ mean_sum] := @reduce_loss_methods _ _ self loss.
apply: mean_sum.
- reflexivity.
- exact: sum_eq.
Defined.

(** ** More on epsilon-insensitivity *)

Lemma not_negative_num (r : R) : not_negative (Num r) <-> (0 <= r)%R.
Proof.
rewrite /not_negative /flt; case: (Rlt_dec r 0) => [lt0|ge0] /=.
  by split=> // ?; lra.
by split=> // _; lra.
Qed.

Lemma not_negative_overflow (r : R) :
  (0 <= r)%R -> not_negative (overflow r).
Proof.
move=> r0; have M0 : (0 < float_overflow)%R by in_range.
rewrite /overflow; case: (Rle_dec float_overflow r) => ? //.
case: (Rle_dec r (- float_overflow)) => ?; first lra.
exact/not_negative_num.
Qed.

Lemma not_negative_inf_times (y : R) :
  (0 <= y)%R -> not_negative (inf_times true y).
Proof.
move=> y0; rewrite /inf_times; case: (Rlt_dec 0 y) => ? //.
by case: (Rlt_dec y 0) => ? //; lra.
Qed.

Lemma not_negative_fsq (x : tfloat) : not_negative (fsq x).
Proof. by case: x => [r|||] //; apply: not_negative_overflow; nra. Qed.

Lemma not_negative_fsqrt (x : tfloat) : not_negative (fsqrt x).
Proof.
case: x => [r|||] //; rewrite /fsqrt; case: (Rlt_dec r 0) => // ?.
by apply/not_negative_num; exact: sqrt_pos.
Qed.

Lemma not_negative_fadd (x y : tfloat) :
  not_negative x -> not_negative y -> not_negative (fadd x y).
Proof.
case: x y => [a|||] [b|||] // /not_negative_num a0 /not_negative_num b0.
by apply: not_negative_overflow; lra.
Qed.

Lemma not_negative_fmul (x y : tfloat) :
  not_negative x -> not_negative y -> not_negative (fmul x y).
Proof.
case: x y => [a|||] [b|||] //.
- move=> /not_negative_num a0 /not_negative_num b0.
  by apply: not_negative_overflow; nra.
- by move=> /not_negative_num a0 _; exact: not_negative_inf_times.
- by move=> _ /not_negative_num b0; exact: not_negative_inf_times.
Qed.

Lemma not_negative_sum (xs : seq tfloat) :
  all not_negative xs -> not_negative (torch_sum xs).
Proof.
elim: xs => [_|x xs IH /= /andP [x0 /IH]]; last exact: not_negative_fadd.
exact/(not_negative_num 0)/Rle_refl.
Qed.

Lemma not_negative_mean (xs : seq tfloat) :
  all not_negative xs -> not_negative (torch_mean xs).
Proof.
move=> /not_negative_sum; rewrite /torch_mean.
have n0 := pos_INR (size xs).
case: (torch_sum xs) => [s|||] //.
- move=> /not_negative_num s0.
  rewrite /fdiv; case: (Req_dec_T (INR (size xs)) 0) => ?.
    case: (Rlt_dec 0 s) => ? //.
    by case: (Rlt_dec s 0) => ? //; lra.
  apply: not_negative_overflow; apply: Rmult_le_pos => //.
  by apply/Rlt_le/Rinv_0_lt_compat; lra.
- by move=> _; rewrite /fdiv; case: (Rlt_dec (INR (size xs)) 0) => ? //; lra.
Qed.

Lemma not_negative_weight (self : Loss.t) : not_negative (Loss.weight self).
Proof.
have := weight_cases self.
case: (isnan (Loss.log_weight self)) => [->|[->|[w -> w0]]] //.
exact/not_negative_num.
Qed.

Lemma not_negative_weighted (self : Loss.t) (x : tfloat) :
  not_negative x -> not_negative (fmul (Loss.weight self) x).
Proof. by apply: not_negative_fmul; exact: not_negative_weight. Qed.

Lemma not_negative_rectified (eps x : tfloat) :
  not_negative x -> not_negative (if flt x eps then Num 0 else x).
Proof. by case: (flt x eps) => // _; apply/not_negative_num; lra. Qed.

Lemma rectify_elem_idem (eps x : tfloat) :
  let f := fun y => if flt y eps then Num 0 else y in f (f x) = f x.
Proof. by move=> f; rewrite /f; case E: (flt x eps); rewrite ?E ?if_same. Qed.

Lemma rectify_elem_noop (e : R) (x : tfloat) :
  (e <= 0)%R -> not_negative x ->
  (if flt x (Num e) then Num 0 else x) = x.
Proof.
case: x => [r|||] // e0 /not_negative_num r0.
by rewrite flt_numF //; lra.
Qed.

Lemma eq_map_all (A B : Type) (p : pred A) (f g : A -> B) (s : seq A) :
  (forall x, p x -> f x = g x) -> all p s -> map f s = map g s.
Proof.
by move=> fg; elim: s => [|x s IH] //= /andP [/fg -> /IH ->].
Qed.

(** Rectifying twice is rectifying once, at every rank; and where epsilon is
    not positive, as with the default [0.0], a loss whose elements are not
    negative, such as a squared error, goes through [rectify_epsilon]
    unchanged. *)
Theorem rectify_epsilon_idempotent :
  (forall (T : Type) (tensorT : Tensor T) (self : Loss.t) (loss : T),
     elems (Loss.rectify_epsilon self (Loss.rectify_epsilon self loss)) =
     elems (Loss.rectify_epsilon self loss)) /\
  (forall (self : Loss.t) (loss : tensor2),
     Loss.rectify_epsilon self (Loss.rectify_epsilon self loss) =
     Loss.rectify_epsilon self loss) /\
  (forall (T : Type) (tensorT : Tensor T) (self : Loss.t) (loss : T) (e : R),
     Loss.epsilon self = Num e -> (e <= 0)%R ->
     all not_negative (elems loss) ->
     elems (Loss.rectify_epsilon self loss) = elems loss) /\
  (forall (self : Loss.t) (targets predictions : tensor1) (e : R),
     Loss.epsilon self = Num e -> (e <= 0)%R ->
     Loss.rectify_epsilon self (mse_loss targets predictions) =
     mse_loss targets predictions).
Proof.
split; [|split; [|split]].
- move=> T tensorT self loss; rewrite !elems_rectify_epsilon -map_comp.
  by apply: eq_map => x; exact: rectify_elem_idem.
- move=> self loss; rewrite /Loss.rectify_epsilon /masked_fill /tmap /=.
  rewrite /tmapS -map_comp; apply: eq_map => row /=.
  rewrite /tmapS -map_comp; apply: eq_map => x /=.
  exact: rectify_elem_idem.
- move=> T tensorT self loss e eps e0 nonneg.
  rewrite elems_rectify_epsilon eps -[RHS]map_id.
  by apply: eq_map_all nonneg => x; exact: rectify_elem_noop.
- move=> self targets predictions e eps e0.
  rewrite mse_loss1 /Loss.rectify_epsilon /masked_fill /tmap /= /tmapS eps.
  rewrite -map_comp; apply: eq_map => tp /=.
  apply: rectify_elem_noop => //.
  exact: not_negative_fsq.
Qed.

Lemma rectify_epsilon_idempotent_witness :
  let self := RegressionMSELoss.init (Num 0) (Num 0) in
  elems (Loss.rectify_epsilon self ([:: [:: NaN; NaN]] : tensor2)) =
  elems ([:: [:: NaN; NaN]] : tensor2).
Proof.
move=> self.
have [_ [_ [noop _]]] := rectify_epsilon_idempotent.
apply: (noop _ _ self _ 0%R).
- reflexivity.
- lra.
- reflexivity.
Defined.

(** ** What the masks let through *)

Lemma mask_agree (A : Type) (x0 : A) (m : bitseq) (s1 s2 : seq A) :
  size s1 = size s2 ->
  (forall n, nth false m n -> nth x0 s1 n = nth x0 s2 n) ->
  mask m s1 = mask m s2.
Proof.
elim: m s1 s2 => [|b m IH] [|x1 s1] [|x2 s2] //= [sz] agree.
have tl : mask m s1 = mask m s2 by apply: IH => // n; exact: (agree n.+1).
by case: b agree => agree; rewrite tl //; have /= -> := agree 0 isT.
Qed.

(** Two tensors that agree wherever the entry of a third one is kept have
    the same selection. *)
Lemma mask_flatten_agree (A B : Type) (a0 : A) (b0 : B) (keep : pred A)
    (t : seq (seq A)) (p1 p2 : seq (seq B)) :
  keep a0 = false -> shape t = shape p1 -> shape t = shape p2 ->
  (forall i j, keep (nth a0 (nth [::] t i) j) ->
     nth b0 (nth [::] p1 i) j = nth b0 (nth [::] p2 i) j) ->
  mask [seq keep x | x <- flatten t] (flatten p1) =
  mask [seq keep x | x <- flatten t] (flatten p2).
Proof.
move=> keep0 sh1 sh2 agree; apply: (@mask_agree _ b0).
  by rewrite !size_flatten -sh1 -sh2.
move=> n; case: (ltnP n (size (flatten t))) => [nlt|nge]; last first.
  by rewrite nth_default // size_map.
rewrite (nth_map a0) // !nth_flatten -sh1 -sh2 /=.
exact: agree.
Qed.

(** With [compute_loss] of either regression class: the predictions at the
    positions whose target is NaN have no influence on what the call
    returns. *)
Theorem regression_ignores_masked_predictions
    (compute_loss : tensor1 -> tensor1 -> result tensor1) (self : Loss.t)
    (targets predictions1 predictions2 : tensor2) (stage : option Stage) :
  same_shape targets predictions1 -> same_shape targets predictions2 ->
  (forall i j : nat,
     ~~ isnan (nth NaN (nth [::] targets i) j) ->
     nth NaN (nth [::] predictions1 i) j =
     nth NaN (nth [::] predictions2 i) j) ->
  RegressionMSELoss.call compute_loss self targets predictions1 stage =
  RegressionMSELoss.call compute_loss self targets predictions2 stage.
Proof.
move=> same1 same2 agree.
have [rn1 _ _ _ _] := remove_nans_masked same1.
have [rn2 _ _ _ _] := remove_nans_masked same2.
rewrite /RegressionMSELoss.call rn1 rn2.
rewrite (@mask_flatten_agree _ _ NaN NaN (predC isnan) targets
           predictions1 predictions2) //; exact: same_shape_shape.
Qed.

Lemma regression_ignores_masked_predictions_witness :
  let self := RegressionMSELoss.init (Num 0) (Num 0) in
  let targets : tensor2 := [:: [:: NaN; Num 1]] in
  RegressionMSELoss.call RegressionMSELoss.compute_loss self targets
    [:: [:: Num 7; Num 2]] (Some train) =
  RegressionMSELoss.call RegressionMSELoss.compute_loss self targets
    [:: [:: Num 9; Num 2]] (Some train).
Proof.
move=> self targets.
apply: regression_ignores_masked_predictions.
- reflexivity.
- reflexivity.
- by case=> [|i] [|[|j]] //=; rewrite ?nth_nil.
Defined.

(** With [compute_loss] of either heatmap class: the predicted heatmaps of
    the (batch, keypoint) slices whose target is all zero have no influence
    on what the call returns. *)
Theorem heatmap_ignores_missing_predictions (T : Type) (tensorT : Tensor T)
    (compute_loss : tensor3 -> tensor3 -> result T) (self : Loss.t)
    (targets predictions1 predictions2 : tensor4) (stage : option Stage) :
  same_shape targets predictions1 -> same_shape targets predictions2 ->
  (forall i k : nat,
     ~~ HeatmapLoss.all_zero (nth [::] (nth [::] targets i) k) ->
     nth [::] (nth [::] predictions1 i) k =
     nth [::] (nth [::] predictions2 i) k) ->
  HeatmapLoss.call compute_loss self targets predictions1 stage =
  HeatmapLoss.call compute_loss self targets predictions2 stage.
Proof.
move=> same1 same2 agree.
rewrite /HeatmapLoss.call /HeatmapLoss.remove_nans same1 same2 /bool_index.
rewrite /HeatmapLoss.invert /HeatmapLoss.all_zeroes !flatten_map_map.
rewrite -map_comp /bind /=.
rewrite (@mask_flatten_agree _ _ [::] [::]
           (fun slice => ~~ HeatmapLoss.all_zero slice) targets
           predictions1 predictions2) //; exact: same_shape_shape.
Qed.

Lemma heatmap_ignores_missing_predictions_witness :
  let self := HeatmapMSELoss.init (Num 0) in
  let targets : tensor4 := [:: [:: [:: [:: Num 0]]; [:: [:: NaN]]]] in
  HeatmapLoss.call HeatmapMSELoss.compute_loss self targets
    [:: [:: [:: [:: Num 5]]; [:: [:: Num 2]]]] (Some train) =
  HeatmapLoss.call HeatmapMSELoss.compute_loss self targets
    [:: [:: [:: [:: Num 6]]; [:: [:: Num 2]]]] (Some train).
Proof.
move=> self targets.
apply: heatmap_ignores_missing_predictions.
- reflexivity.
- reflexivity.
- case=> [|i] [|[|k]] //=; rewrite ?nth_nil //.
  by rewrite /HeatmapLoss.all_zero /=; case: (Req_dec_T 0 0).
Defined.

(** ** Batches without, and with only, missing labels *)

Lemma mask_map_all (A B : Type) (p : pred A) (s : seq A) (t : seq B) :
  all p s -> size t = size s -> mask [seq p x | x <- s] t = t.
Proof.
move=> ps st; apply: mask_all; last by rewrite size_map st.
by rewrite all_map.
Qed.

Lemma mask_map_none (A B : Type) (p : pred A) (s : seq A) (t : seq B) :
  ~~ has p s -> mask [seq p x | x <- s] t = [::].
Proof.
elim: s t => [|x s IH] [|y t] //=.
by rewrite negb_or => /andP [/negbTE -> /IH ->].
Qed.

Lemma some_slice (A : Type) (t : seq (seq A)) :
  0 < size (flatten t) -> nilp (flatten t) = false.
Proof. by case: (flatten t). Qed.

(** When no label is missing, [remove_nans] removes nothing: both classes
    return the two tensors, flattened over their leading dimensions; the
    heatmap class does so on a batch with at least one (batch, keypoint)
    slice, and raises [RuntimeError] on a batch without any. *)
Theorem remove_nans_nothing_missing :
  (forall targets predictions : tensor2,
     same_shape targets predictions -> ~~ has isnan (flatten targets) ->
     RegressionMSELoss.remove_nans targets predictions =
     Ok (flatten targets, flatten predictions)) /\
  (forall targets predictions : tensor4,
     same_shape targets predictions ->
     0 < size (flatten targets) ->
     ~~ has HeatmapLoss.all_zero (flatten targets) ->
     HeatmapLoss.remove_nans targets predictions =
     Ok (flatten targets, flatten predictions)) /\
  (forall targets predictions : tensor4,
     same_shape targets predictions ->
     size (flatten targets) = 0 ->
     HeatmapLoss.remove_nans targets predictions = Raise RuntimeError).
Proof.
split; [|split]; move=> targets predictions same.
- move=> none; have [-> _ _ _ _] := remove_nans_masked same.
  have sz := same_shape_size_flatten same.
  by rewrite !(@mask_map_all _ _ (predC isnan)) // all_predC.
- move=> some none.
  rewrite /HeatmapLoss.remove_nans same (some_slice some).
  rewrite /bool_index /HeatmapLoss.invert.
  rewrite /HeatmapLoss.all_zeroes !flatten_map_map -map_comp.
  have sz := same_shape_size_flatten same.
  by rewrite !(@mask_map_all _ _ (predC HeatmapLoss.all_zero)) // all_predC.
- by rewrite /HeatmapLoss.remove_nans same => /size0nil ->.
Qed.

Lemma remove_nans_nothing_missing_witness :
  RegressionMSELoss.remove_nans [:: [:: Num 1; Num 2]; [:: Num 3; Num 4]]
    [:: [:: Num 5; Num 6]; [:: Num 7; Num 8]] =
  Ok ([:: Num 1; Num 2; Num 3; Num 4], [:: Num 5; Num 6; Num 7; Num 8]) /\
  HeatmapLoss.remove_nans [:: [:: [:: [:: NaN]]]; [:: [:: [:: NaN]]]]
    [:: [:: [:: [:: Num 1]]]; [:: [:: [:: Num 2]]]] =
  Ok ([:: [:: [:: NaN]]; [:: [:: NaN]]], [:: [:: [:: Num 1]]; [:: [:: Num 2]]]).
Proof.
split.
- apply: (proj1 remove_nans_nothing_missing).
  + reflexivity.
  + reflexivity.
- apply: (proj1 (proj2 remove_nans_nothing_missing)).
  + reflexivity.
  + reflexivity.
  + reflexivity.
Defined.

(** What regression [remove_nans] returns holds no NaN target, and masking
    it once more, as a batch of one row, returns it unchanged. *)
Theorem regression_remove_nans_idempotent
    (targets predictions : tensor2) (targets_masked predictions_masked : tensor1) :
  RegressionMSELoss.remove_nans targets predictions =
    Ok (targets_masked, predictions_masked) ->
  ~~ has isnan targets_masked /\
  RegressionMSELoss.remove_nans [:: targets_masked] [:: predictions_masked] =
    Ok (targets_masked, predictions_masked).
Proof.
move=> rn0.
have same : same_shape targets predictions.
  by move: rn0; rewrite /RegressionMSELoss.remove_nans; case: (same_shape _ _).
have [rn _ szp tm _] := remove_nans_masked same.
move: rn0; rewrite rn => -[<- <-].
have nonan : ~~ has isnan [seq x <- flatten targets | ~~ isnan x].
  by rewrite -all_predC; exact: (filter_all (predC isnan)).
rewrite tm; split=> //.
have same1 : same_shape [:: [seq x <- flatten targets | ~~ isnan x]]
               [:: mask [seq ~~ isnan x | x <- flatten targets]
                     (flatten predictions)].
  rewrite /same_shape /= /same_shapeS /= andbT.
  by rewrite [same_shapeS _ _ _]same_shape1E -tm szp.
have [-> _ _ _ _] := remove_nans_masked same1.
have allv : all (predC isnan) [seq x <- flatten targets | ~~ isnan x].
  by rewrite all_predC.
have szp' : size (mask [seq ~~ isnan x | x <- flatten targets]
                    (flatten predictions)) =
            size [seq x <- flatten targets | ~~ isnan x] by rewrite szp tm.
by rewrite /= !cats0 (mask_map_all allv (erefl _)) (mask_map_all allv szp').
Qed.

Lemma regression_remove_nans_idempotent_witness :
  ~~ has isnan [:: Num 1; Num 2] /\
  RegressionMSELoss.remove_nans [:: [:: Num 1; Num 2]] [:: [:: Num 6; Num 7]] =
    Ok ([:: Num 1; Num 2], [:: Num 6; Num 7]).
Proof.
apply: (@regression_remove_nans_idempotent
          [:: [:: NaN; Num 1]; [:: Num 2; NaN]]
          [:: [:: Num 5; Num 6]; [:: Num 7; Num 8]]).
by have [-> _ _ _ _] :=
  @remove_nans_masked [:: [:: NaN; Num 1]; [:: Num 2; NaN]]
    [:: [:: Num 5; Num 6]; [:: Num 7; Num 8]] erefl.
Defined.

(** ** When the RMSE call fails *)

(** The RMSE call pairs up the coordinates that the mask leaves: it raises
    [RuntimeError] exactly when the number of targets that are not NaN is
    odd, and returns a value, given a stage, when it is even. *)
Theorem rmse_call_parity (self : Loss.t) (targets predictions : tensor2) :
  same_shape targets predictions ->
  let valid := count (predC isnan) (flatten targets) in
  (odd valid -> forall stage : option Stage,
     RegressionRMSELoss.call self targets predictions stage =
     Raise RuntimeError) /\
  (~~ odd valid -> forall stage : Stage,
     exists (v : tfloat) (logs : seq log_dict),
       RegressionRMSELoss.call self targets predictions (Some stage) =
       Ok (v, logs)).
Proof.
move=> same valid; have [rn szt szp _ _] := remove_nans_masked same.
rewrite /RegressionRMSELoss.call /RegressionMSELoss.call rn /bind.
split=> [odd_valid stage|even_valid stage].
- rewrite /RegressionRMSELoss.compute_loss same_shape1E szp eqxx.
  by rewrite /reshape_pairs szt -/valid odd_valid.
- have even2 : valid = valid./2.*2.
    by rewrite -[LHS]odd_double_half (negbTE even_valid).
  rewrite (@rmse_compute_loss_even valid./2) ?szp ?szt -?even2 //.
  by rewrite /Loss.log_loss /=; eexists; eexists.
Qed.

Lemma rmse_call_parity_witness :
  let self := RegressionRMSELoss.init (Num 0) (Num 0) in
  RegressionRMSELoss.call self [:: [:: NaN; Num 1]] [:: [:: Num 2; Num 3]]
    (Some train) = Raise RuntimeError /\
  exists (v : tfloat) (logs : seq log_dict),
    RegressionRMSELoss.call self [:: [:: NaN; NaN; Num 1; Num 1]]
      [:: [:: Num 5; Num 5; Num 4; Num 5]] (Some train) = Ok (v, logs).
Proof.
move=> self; split.
- apply: (proj1 (@rmse_call_parity self [:: [:: NaN; Num 1]]
                   [:: [:: Num 2; Num 3]] _)).
  + reflexivity.
  + reflexivity.
- apply: (proj2 (@rmse_call_parity self [:: [:: NaN; NaN; Num 1; Num 1]]
                   [:: [:: Num 5; Num 5; Num 4; Num 5]] _)).
  + reflexivity.
  + reflexivity.
Defined.

(** ** Edge cases of the temporal loss *)

(** With fewer than two frames [TemporalLoss.compute_loss] raises
    [RuntimeError], as it does when a frame has an odd number of
    coordinates; the call then raises it too. *)
Theorem temporal_compute_loss_errors :
  (forall predictions : tensor2,
     size predictions <= 1 ->
     TemporalLoss.compute_loss predictions = Raise RuntimeError) /\
  (forall (predictions : tensor2) (n : nat),
     1 < size predictions ->
     all (fun row => size row == n) predictions -> odd n ->
     TemporalLoss.compute_loss predictions = Raise RuntimeError) /\
  (forall (self : Loss.t) (predictions : tensor2) (stage : option Stage),
     TemporalLoss.compute_loss predictions = Raise RuntimeError ->
     TemporalLoss.call self predictions stage = Raise RuntimeError).
Proof.
split; [|split].
- by case=> [|row0 [|row1 rows]].
- case=> [|row0 [|row1 rows]] // n _ sz odd_n.
  have := torch_diff_sizes sz.
  rewrite /TemporalLoss.compute_loss /torch_diff /= => /andP [/eqP s0 _].
  by rewrite /reshape_rows_pairs /= s0 odd_n.
- by move=> self predictions stage; rewrite /TemporalLoss.call => ->.
Qed.

Lemma temporal_compute_loss_errors_witness :
  TemporalLoss.compute_loss [:: [:: Num 1; Num 2]] = Raise RuntimeError /\
  TemporalLoss.compute_loss [:: [:: Num 1]; [:: Num 2]] = Raise RuntimeError.
Proof.
have [single [odd_width _]] := temporal_compute_loss_errors.
split.
- apply: single.
  reflexivity.
- apply: (odd_width _ 1).
  + reflexivity.
  + reflexivity.
  + reflexivity.
Defined.

(** ** Losses that vanish *)

Lemma feq_num_eq (x y : R) : feq (Num x) (Num y) -> x = y.
Proof. by rewrite /feq; case: (Req_dec_T x y). Qed.

Lemma torch_sum_zeros (xs : seq tfloat) :
  all (fun x => feq x (Num 0)) xs -> torch_sum xs = Num 0.
Proof.
elim: xs => [|x xs IH] //= /andP [x0 /IH]; rewrite /torch_sum => ->.
case: x x0 => [r|||] // /feq_num_eq ->.
by rewrite fadd_num; [in_range | congr (Num _); lra].
Qed.

Lemma torch_mean_zeros (xs : seq tfloat) :
  all (fun x => feq x (Num 0)) xs -> 0 < size xs -> torch_mean xs = Num 0.
Proof.
move=> /torch_sum_zeros zeros n0; rewrite /torch_mean zeros.
have ne0 : INR (size xs) <> 0%R.
  by apply: not_0_INR => n_eq; rewrite n_eq in n0.
have z : (0 / INR (size xs) = 0)%R by rewrite /Rdiv Rmult_0_l.
by rewrite fdiv_num // z //; in_range.
Qed.

Lemma fsub_self (x : tfloat) : isfinite x -> fsq (fsub x x) = Num 0.
Proof.
case: x => [r|||] // _; rewrite /fsq /fsub.
have -> : (r - r = 0)%R by lra.
rewrite overflow_num; first by in_range.
by rewrite fmul_num; [in_range | congr (Num _); lra].
Qed.

Lemma feq_zero : feq (Num 0) (Num 0).
Proof. by rewrite feq_refl. Qed.

Lemma weight_times_zero (self : Loss.t) (r : R) :
  Loss.log_weight self = Num r -> (-80 <= r <= 80)%R ->
  fmul (Loss.weight self) (Num 0) = Num 0.
Proof.
move=> lw range; rewrite (weight_num lw range).
by rewrite fmul_num Rmult_0_r //; in_range.
Qed.

Lemma regression_call_ok (self : Loss.t) (targets predictions : tensor2)
    (targets_masked predictions_masked : tensor1) (stage : Stage) :
  RegressionMSELoss.remove_nans targets predictions =
    Ok (targets_masked, predictions_masked) ->
  size targets_masked = size predictions_masked ->
  exists logs : seq log_dict,
    RegressionMSELoss.call RegressionMSELoss.compute_loss self
      targets predictions (Some stage) =
    Ok (fmul (Loss.weight self)
          (torch_mean (mse_loss targets_masked predictions_masked)), logs) /\
    [seq value d | d <- logs] =
    [:: torch_mean (mse_loss targets_masked predictions_masked);
        Loss.weight self].
Proof.
move=> rn sz; rewrite /RegressionMSELoss.call rn /bind.
rewrite /RegressionMSELoss.compute_loss same_shape1E sz eqxx.
rewrite reduce_loss_mean elems1 /Loss.log_loss.
by eexists; split.
Qed.

(** Predictions that equal the target wherever there is one have a
    regression MSE loss of exactly zero, whatever they are elsewhere, as
    soon as the targets that are not NaN are finite, one at least is not
    NaN, and [log_weight] lies between [-80] and [80], where the weight is a
    finite number. *)
Theorem regression_perfect_prediction (self : Loss.t)
    (targets predictions : tensor2) (stage : Stage) (r : R) :
  Loss.log_weight self = Num r -> (-80 <= r <= 80)%R ->
  same_shape targets predictions ->
  all (fun x => isnan x || isfinite x) (flatten targets) ->
  has (predC isnan) (flatten targets) ->
  (forall i j : nat,
     ~~ isnan (nth NaN (nth [::] targets i) j) ->
     nth NaN (nth [::] predictions i) j = nth NaN (nth [::] targets i) j) ->
  exists logs : seq log_dict,
    RegressionMSELoss.call RegressionMSELoss.compute_loss self
      targets predictions (Some stage) = Ok (Num 0, logs) /\
    [seq value d | d <- logs] = [:: Num 0; Loss.weight self].
Proof.
move=> lw range same finite valid agree.
have [rn szt szp tm _] := remove_nans_masked same.
have pm_tm : mask [seq ~~ isnan x | x <- flatten targets]
               (flatten predictions) =
             [seq x <- flatten targets | ~~ isnan x].
  rewrite -tm.
  apply: (@mask_flatten_agree _ _ NaN NaN (predC isnan)) => //.
  exact: same_shape_shape.
have zeros : torch_mean
               [seq fsq (fsub tp.1 tp.2)
               | tp <- zip [seq x <- flatten targets | ~~ isnan x]
                           [seq x <- flatten targets | ~~ isnan x]] = Num 0.
  apply: torch_mean_zeros; last first.
    by rewrite size_map size_zip minnn size_filter -has_count.
  rewrite all_map.
  elim: (flatten targets) finite => [|x xs IH] //= /andP [fx /IH {}IH].
  case nx: (isnan x) fx => //= fx.
  by rewrite IH fsub_self // feq_zero.
have [logs] := regression_call_ok self stage rn (esym szp).
rewrite tm pm_tm mse_loss1 zeros (weight_times_zero lw range) => call_eq.
by exists logs.
Qed.

Lemma regression_perfect_prediction_witness :
  let self := RegressionMSELoss.init (Num 0) (Num 0) in
  exists logs : seq log_dict,
    RegressionMSELoss.call RegressionMSELoss.compute_loss self
      [:: [:: NaN; Num 1]] [:: [:: Num 7; Num 1]] (Some train) =
      Ok (Num 0, logs) /\
    [seq value d | d <- logs] = [:: Num 0; Loss.weight self].
Proof.
move=> self.
apply: (@regression_perfect_prediction self _ _ train 0%R).
- reflexivity.
- lra.
- reflexivity.
- reflexivity.
- reflexivity.
- by case=> [|i] [|[|j]] //=; rewrite ?nth_nil.
Defined.

Lemma pairmap_nseq (A B : Type) (f : A -> A -> B) (x : A) (n : nat) :
  pairmap f x (nseq n x) = nseq n (f x x).
Proof. by elim: n => [|n IH] //=; rewrite IH. Qed.

Lemma row_diff_self (row : tensor1) :
  all isfinite row -> tmap2 fsub row row = nseq (size row) (Num 0).
Proof.
rewrite /tmap2 /= /tmap2S.
elim: row => [|x row IH] //= /andP [fx /IH ->].
case: x fx => [r|||] //= _; congr (_ :: _).
have -> : (r - r = 0)%R by lra.
by rewrite overflow_num //; in_range.
Qed.

Lemma reshape_nseq (A : Type) (z : A) (K : nat) :
  reshape (nseq K 2) (nseq K.*2 z) = nseq K [:: z; z].
Proof. by elim: K => [|K IH] //=; rewrite take0 drop0 IH. Qed.

Lemma vector_norm_zero : vector_norm [:: Num 0; Num 0] = Num 0.
Proof.
rewrite vector_norm2; fnum.
have -> : (0 * 0 + 0 * 0 = 0)%R by lra.
by rewrite fsqrt_num ?sqrt_0 //; lra.
Qed.

Lemma elems2 (t : tensor2) : elems t = flatten t.
Proof. by rewrite /elems /= /elemsS (eq_map elems1) map_id. Qed.

Lemma temporal_no_motion_loss (row : tensor1) (B K : nat) :
  size row = K.*2 -> all isfinite row ->
  TemporalLoss.compute_loss (nseq B.+2 row) =
  Ok (nseq B.+1 (nseq K (Num 0))).
Proof.
move=> sz nonan; rewrite /TemporalLoss.compute_loss.
have -> : torch_diff (nseq B.+2 row) =
          pairmap (fun prev next => tmap2 fsub next prev) row
            (nseq B.+1 row) by [].
rewrite pairmap_nseq row_diff_self // sz.
have d0 : 0 < size (nseq B.+1 (nseq K.*2 (Num 0))) by rewrite size_nseq.
have dsz : all (fun d : tensor1 => size d == K.*2)
             (nseq B.+1 (nseq K.*2 (Num 0))).
  by rewrite all_nseq /= size_nseq eqxx.
rewrite (reshape_rows_pairs_even d0 dsz).
by rewrite /bind !map_nseq reshape_nseq map_nseq vector_norm_zero.
Qed.

(** Keypoints that do not move cost nothing: when all the frames, two or
    more, hold the same finite coordinates of at least one keypoint, and
    [log_weight] lies between [-80] and [80], every elementwise temporal loss
    is zero and the call returns exactly zero, whatever epsilon is. *)
Theorem temporal_no_motion (self : Loss.t) (row : tensor1) (B K : nat)
    (stage : Stage) (r : R) :
  Loss.log_weight self = Num r -> (-80 <= r <= 80)%R ->
  size row = K.+1.*2 -> all isfinite row ->
  TemporalLoss.compute_loss (nseq B.+2 row) =
    Ok (nseq B.+1 (nseq K.+1 (Num 0))) /\
  exists logs : seq log_dict,
    TemporalLoss.call self (nseq B.+2 row) (Some stage) = Ok (Num 0, logs) /\
    [seq value d | d <- logs] = [:: Num 0; Loss.weight self].
Proof.
move=> lw range sz finite; have cl := temporal_no_motion_loss B sz finite.
split=> //; rewrite /TemporalLoss.call cl /bind reduce_loss_mean.
rewrite elems_rectify_epsilon elems2.
set rectified := map _ _.
have zeros : all (fun x => feq x (Num 0)) rectified.
  rewrite all_map all_flatten all_nseq [_ == 0]/= all_nseq [_ == 0]/=.
  by rewrite [preim _ _ _]/= if_same feq_zero !orbT.
have n0 : 0 < size rectified by rewrite size_map /= size_cat.
rewrite (torch_mean_zeros zeros n0) /Loss.log_loss.
rewrite (weight_times_zero lw range).
by eexists; split.
Qed.

Lemma temporal_no_motion_witness :
  let self := TemporalLoss.init (Num 1) (Num 0) in
  let row : tensor1 := [:: Num 3; Num 4] in
  TemporalLoss.compute_loss [:: row; row; row] =
    Ok [:: [:: Num 0]; [:: Num 0]] /\
  exists logs : seq log_dict,
    TemporalLoss.call self [:: row; row; row] (Some train) =
      Ok (Num 0, logs) /\
    [seq value d | d <- logs] = [:: Num 0; Loss.weight self].
Proof.
move=> self row.
apply: (@temporal_no_motion self row 1 0 train 0%R).
- reflexivity.
- lra.
- reflexivity.
- reflexivity.
Defined.

(** ** No call returns a negative loss *)

Lemma all_elems_tmap2S (T : Type) (tensorT : Tensor T) (P : pred tfloat)
    (f : tfloat -> tfloat -> tfloat) :
  (forall a b : T, all P (elems (tmap2 f a b))) ->
  forall a b : seq T, all P (elems (tmap2 f a b)).
Proof.
move=> inner a b; rewrite /elems /tmap2 /= /elemsS /tmap2S all_flatten.
by rewrite -map_comp all_map; elim: (zip a b) => [|xy s IH] //=; rewrite inner.
Qed.

Lemma not_negative_mse_loss3 (a b : tensor3) :
  all not_negative (elems (mse_loss a b)).
Proof.
do 3![apply: all_elems_tmap2S] => x y.
by rewrite /= andbT not_negative_fsq.
Qed.

Lemma not_negative_mse_loss1 (a b : tensor1) :
  all not_negative (elems (mse_loss a b)).
Proof.
by apply: all_elems_tmap2S => x y; rewrite /= andbT not_negative_fsq.
Qed.

(** With a squared error or a norm as elementwise loss, a call that returns
    never returns a negative loss: the temporal, regression MSE, RMSE and
    heatmap MSE calls return a number that is not negative, the positive
    infinity, or NaN. *)
Theorem loss_never_negative :
  (forall self keypoints_pred stage v logs,
     TemporalLoss.call self keypoints_pred stage = Ok (v, logs) ->
     not_negative v) /\
  (forall self targets predictions stage v logs,
     RegressionMSELoss.call RegressionMSELoss.compute_loss self
       targets predictions stage = Ok (v, logs) ->
     not_negative v) /\
  (forall self targets predictions stage v logs,
     RegressionRMSELoss.call self targets predictions stage = Ok (v, logs) ->
     not_negative v) /\
  (forall self targets predictions stage v logs,
     HeatmapMSELoss.call self targets predictions stage = Ok (v, logs) ->
     not_negative v).
Proof.
split; [|split; [|split]].
- move=> self keypoints_pred stage v logs; rewrite /TemporalLoss.call => H.
  have [loss cl {H}] := bind_ok H.
  rewrite reduce_loss_mean elems_rectify_epsilon /bind => /call_tail_ok ->.
  apply/not_negative_weighted/not_negative_mean.
  rewrite all_map elems2 all_flatten.
  move: cl; rewrite /TemporalLoss.compute_loss => H.
  have [reshaped _ [<-]] := bind_ok H.
  rewrite all_map; apply/sub_all/all_predT => row _ /=.
  rewrite all_map; apply/sub_all/all_predT => xy _ /=.
  exact/not_negative_rectified/not_negative_fsqrt.
- move=> self targets predictions stage v logs.
  rewrite /RegressionMSELoss.call => H.
  have [clean _ {}H] := bind_ok H; have [loss cl {H}] := bind_ok H.
  rewrite reduce_loss_mean /bind => /call_tail_ok ->.
  apply/not_negative_weighted/not_negative_mean.
  move: cl; rewrite /RegressionMSELoss.compute_loss.
  by case: (same_shape _ _) => // -[<-]; exact: not_negative_mse_loss1.
- move=> self targets predictions stage v logs.
  rewrite /RegressionRMSELoss.call /RegressionMSELoss.call => H.
  have [clean _ {}H] := bind_ok H; have [loss cl {H}] := bind_ok H.
  rewrite reduce_loss_mean /bind => /call_tail_ok ->.
  apply/not_negative_weighted/not_negative_mean.
  move: cl; rewrite /RegressionRMSELoss.compute_loss.
  case: (same_shape _ _) => // H.
  have [targs _ {}H] := bind_ok H; have [preds _ [<-]] := bind_ok H.
  rewrite elems1 /tmap /= /tmapS all_map.
  by apply/sub_all/all_predT => x _ /=; exact: not_negative_fsqrt.
- move=> self targets predictions stage v logs.
  rewrite /HeatmapMSELoss.call /HeatmapLoss.call => H.
  have [clean _ {}H] := bind_ok H; have [loss cl {H}] := bind_ok H.
  rewrite reduce_loss_mean /bind => /call_tail_ok ->.
  apply/not_negative_weighted/not_negative_mean.
  move: cl; rewrite /HeatmapMSELoss.compute_loss.
  by case: (same_shape _ _) => // -[<-]; exact: not_negative_mse_loss3.
Qed.

Lemma loss_never_negative_witness :
  not_negative (Num (5 / 4)).
Proof.
exact: (proj1 loss_never_negative _ _ _ _ _ temporal_call_3_4_5).
Defined.

(** ** Calls without a stage *)

Lemma bind_never_ok (A B : Type) (m : result A) (k : A -> result B) :
  (forall a b, k a <> Ok b) -> forall b, bind m k <> Ok b.
Proof. by case: m => [a|e] //= never b; exact: never. Qed.

Lemma call_tail_no_stage (self : Loss.t) (scalar_loss : tfloat)
    (b : tfloat * seq log_dict) :
  (logs <- Loss.log_loss self scalar_loss None ;;
   Ok (fmul (Loss.weight self) scalar_loss, logs)) <> Ok b.
Proof. by []. Qed.

(** [stage] defaults to [None] in every [__call__], but [log_loss] only
    takes one of the three stages: no call returns a value when it is given
    no stage. *)
Theorem call_needs_stage :
  (forall (T : Type) (tensorT : Tensor T) compute_loss self targ pred b,
     @HeatmapLoss.call T tensorT compute_loss self targ pred None <> Ok b) /\
  (forall reproj fmt self keypoints_pred b,
     PCALoss.call reproj fmt self keypoints_pred None <> Ok b) /\
  (forall self keypoints_pred b,
     TemporalLoss.call self keypoints_pred None <> Ok b) /\
  (forall generate_heatmaps self keypoints_pred heatmaps_pred b,
     UnimodalLoss.call generate_heatmaps self keypoints_pred heatmaps_pred
       None <> Ok b) /\
  (forall compute_loss self targ pred b,
     RegressionMSELoss.call compute_loss self targ pred None <> Ok b).
Proof.
split; [|split; [|split; [|split]]].
- move=> T tensorT compute_loss self targ pred b.
  do 2![apply: bind_never_ok => ? {}b].
  exact: call_tail_no_stage.
- move=> reproj fmt self keypoints_pred b.
  do 2![apply: bind_never_ok => ? {}b].
  exact: call_tail_no_stage.
- move=> self keypoints_pred b.
  apply: bind_never_ok => ? {}b.
  exact: call_tail_no_stage.
- move=> generate_heatmaps self keypoints_pred heatmaps_pred b.
  rewrite /UnimodalLoss.call; case: ifP => // _.
  do 3![apply: bind_never_ok => ? {}b].
  by apply: bind_never_ok => ? {}b.
- move=> compute_loss self targ pred b.
  do 2![apply: bind_never_ok => ? {}b].
  exact: call_tail_no_stage.
Qed.

Lemma call_needs_stage_witness :
  TemporalLoss.call (TemporalLoss.init (Num 0) (Num 0))
    [:: [:: Num 0; Num 0]; [:: Num 3; Num 4]] None <> Ok (Num 0, [::]).
Proof.
have [_ [_ [temporal _]]] := call_needs_stage.
exact: temporal.
Defined.

(** ** A heatmap batch without labels *)

(** When a batch has (batch, keypoint) slices and every target slice is
    all zero, the heatmap MSE call removes the whole batch and returns NaN,
    the mean of no element. *)
Theorem heatmap_all_missing (self : Loss.t) (targets predictions : tensor4)
    (stage : Stage) :
  same_shape targets predictions ->
  0 < size (flatten targets) ->
  all HeatmapLoss.all_zero (flatten targets) ->
  HeatmapLoss.remove_nans targets predictions = Ok ([::], [::]) /\
  exists logs : seq log_dict,
    HeatmapMSELoss.call self targets predictions (Some stage) =
      Ok (NaN, logs) /\
    [seq value d | d <- logs] = [:: NaN; Loss.weight self].
Proof.
move=> same some zeros.
have rn : HeatmapLoss.remove_nans targets predictions = Ok ([::], [::]).
  rewrite /HeatmapLoss.remove_nans same (some_slice some).
  rewrite /bool_index /HeatmapLoss.invert.
  rewrite /HeatmapLoss.all_zeroes !flatten_map_map -map_comp.
  rewrite !(@mask_map_none _ _ (predC HeatmapLoss.all_zero)) //.
    by rewrite has_predC negbK.
  by rewrite has_predC negbK.
have cl : HeatmapMSELoss.compute_loss [::] [::] = Ok [::] by [].
split=> //; rewrite /HeatmapMSELoss.call /HeatmapLoss.call rn /bind.
rewrite [(_, _).1]/= [(_, _).2]/= cl reduce_loss_mean.
rewrite [elems _]/= torch_mean_nil /Loss.log_loss fmulNaN.
by eexists; split.
Qed.

Lemma heatmap_all_missing_witness :
  let self := HeatmapMSELoss.init (Num 0) in
  let targets : tensor4 := [:: [:: [:: [:: Num 0; Num 0]]]] in
  let predictions : tensor4 := [:: [:: [:: [:: Num 1; Num 2]]]] in
  HeatmapLoss.remove_nans targets predictions = Ok ([::], [::]) /\
  exists logs : seq log_dict,
    HeatmapMSELoss.call self targets predictions (Some train) =
      Ok (NaN, logs) /\
    [seq value d | d <- logs] = [:: NaN; Loss.weight self].
Proof.
move=> self targets predictions.
apply: heatmap_all_missing.
- reflexivity.
- reflexivity.
- by rewrite /= /HeatmapLoss.all_zero /=; case: (Req_dec_T 0 0).
Defined.

(** ** Construction of the PCA and unimodal losses *)

(** The two guards of the PCA constructor come before the fit, whatever the
    fit is: a name that is neither of the two PCA names is a [TypeError], and
    the multi-view loss without column matches is a [ValueError].  A loss
    that has been constructed has one of the two names (with column matches
    if it is the multi-view one), keeps that name and [log_weight], and its
    epsilon is the one of its PCA object, not the default zero. *)
Theorem pca_init_spec
    (fit : string -> option (seq (seq nat)) -> PCALoss.KeypointPCA)
    (loss_name : string) (matches : option (seq (seq nat)))
    (log_weight : tfloat) :
  let r := PCALoss.init fit loss_name matches log_weight in
  [/\ loss_name <> "pca_singleview"%string ->
      loss_name <> "pca_multiview"%string -> r = Raise TypeError,
      loss_name = "pca_multiview"%string -> matches = None ->
      r = Raise ValueError
    & forall self : PCALoss.t, r = Ok self ->
      [/\ Loss.epsilon (PCALoss.base self) =
            PCALoss.pca_epsilon (PCALoss.pca self),
          Loss.log_weight (PCALoss.base self) = log_weight,
          Loss.loss_name (PCALoss.base self) = loss_name
        & loss_name = "pca_singleview"%string \/
          loss_name = "pca_multiview"%string /\ matches <> None]].
Proof.
rewrite /PCALoss.init.
case: (String.eqb_spec loss_name "pca_singleview") => [->|ns] /=.
  split=> //; by move=> self [<-]; split=> //; left.
case: (String.eqb_spec loss_name "pca_multiview") => [->|nm] /=.
  case: matches => [m|] /=; split=> //.
  by move=> self [<-]; split=> //; right.
by split.
Qed.

Lemma pca_init_spec_witness :
  let fit := fun (_ : string) (m : option (seq (seq nat))) =>
    PCALoss.mkPCA (Num 3) [::] [::] m in
  let self :=
    PCALoss.mk (Loss.mk (Num 3) (Num 0) "pca_singleview")
      (PCALoss.mkPCA (Num 3) [::] [::] None) in
  PCALoss.init fit "pca_multiview" None (Num 0) = Raise ValueError /\
  Loss.epsilon (PCALoss.base self) = PCALoss.pca_epsilon (PCALoss.pca self).
Proof.
move=> fit self; split.
- have [_ value_error _] := pca_init_spec fit "pca_multiview" None (Num 0).
  apply: value_error.
  + reflexivity.
  + reflexivity.
- have [_ _ built] := pca_init_spec fit "pca_singleview" None (Num 0).
  by have [-> _ _ _] := built self erefl.
Defined.

(** Construction of a unimodal loss raises [TypeError] exactly for a name
    that is neither of the two unimodal names.  On heatmaps of one shape
    the [compute_loss] of a constructed loss is the elementwise squared
    error for ["unimodal_mse"] and the Sinkhorn loss of the collapsed
    tensors otherwise: it never reaches [NotImplementedError], nor a
    missing [wasserstein_loss]. *)
Theorem unimodal_init_spec
    (SamplesLoss : option tfloat -> tensor3 -> tensor3 -> result tensor1)
    (loss_name : string) (h w dh dw : Z) (reach : option tfloat)
    (epsilon log_weight : tfloat) :
  let r := UnimodalLoss.init SamplesLoss loss_name h w dh dw reach
             epsilon log_weight in
  (r = Raise TypeError <->
     loss_name <> "unimodal_mse"%string /\
     loss_name <> "unimodal_wasserstein"%string) /\
  (forall self : UnimodalLoss.t, r = Ok self ->
   [/\ Loss.epsilon (UnimodalLoss.base self) = epsilon,
       Loss.log_weight (UnimodalLoss.base self) = log_weight,
       Loss.loss_name (UnimodalLoss.base self) = loss_name
     & forall targets predictions : tensor4,
         same_shape targets predictions ->
         UnimodalLoss.compute_loss self targets predictions =
         if String.eqb loss_name "unimodal_mse"
         then Ok (inl (mse_loss targets predictions))
         else (targets_rs <- UnimodalLoss.collapse targets ;;
               predictions_rs <- UnimodalLoss.collapse predictions ;;
               loss <- SamplesLoss reach targets_rs predictions_rs ;;
               Ok (inr loss))]).
Proof.
rewrite /UnimodalLoss.init.
case: (String.eqb_spec loss_name "unimodal_mse") => [->|nm] /=.
  split; first by split=> // -[].
  move=> self [<-]; split=> // targets predictions same.
  rewrite /UnimodalLoss.compute_loss.
  by have -> : same_shape targets predictions = true by exact: same.
case: (String.eqb_spec loss_name "unimodal_wasserstein") => [->|nw] /=.
  split; first by split=> // -[].
  move=> self [<-]; split=> // targets predictions same.
  rewrite /UnimodalLoss.compute_loss.
  by have -> : same_shape targets predictions = true by exact: same.
by split.
Qed.

Lemma unimodal_init_spec_witness :
  let SamplesLoss :=
    fun (_ : option tfloat) (t _ : tensor3) => Ok (nseq (size t) NaN) in
  let self :=
    UnimodalLoss.mk (Loss.mk (Num 0) (Num 0) "unimodal_wasserstein") 2 2 1 1
      (Some (SamplesLoss None)) in
  UnimodalLoss.compute_loss self [:: [:: [:: [:: Num 1]]]]
    [:: [:: [:: [:: Num 2]]]] = Ok (inr [:: NaN]).
Proof.
move=> SamplesLoss self.
have [_ built] :=
  unimodal_init_spec SamplesLoss "unimodal_wasserstein" 2 2 1 1 None
    (Num 0) (Num 0).
have [_ _ _ cl] := built self erefl.
by rewrite cl.
Defined.

(** ** The registry and the constructors *)

(** The registry knows eight names.  Those it maps to the PCA loss are
    exactly the names that the constructor of the PCA loss takes, and
    likewise for the unimodal loss. *)
Theorem registry_names (key : string) :
  [/\ get_loss_classes key = None <->
        ~ List.In key
            [:: "regression"%string; "heatmap_mse"%string;
                "heatmap_wasserstein"%string; "pca_multiview"%string;
                "pca_singleview"%string; "temporal"%string;
                "unimodal_mse"%string; "unimodal_wasserstein"%string],
      forall fit matches log_weight,
        get_loss_classes key = Some PCALoss_class <->
        PCALoss.init fit key matches log_weight <> Raise TypeError
    & forall SamplesLoss h w dh dw reach epsilon log_weight,
        get_loss_classes key = Some UnimodalLoss_class <->
        UnimodalLoss.init SamplesLoss key h w dh dw reach epsilon log_weight
          <> Raise TypeError].
Proof.
rewrite /get_loss_classes /PCALoss.init /UnimodalLoss.init.
case: (String.eqb_spec key "regression") => [->|n1].
  split; [split=> // H; case: H; rewrite /=; tauto | | ]; by move=> *; split.
case: (String.eqb_spec key "heatmap_mse") => [->|n2].
  split; [split=> // H; case: H; rewrite /=; tauto | | ]; by move=> *; split.
case: (String.eqb_spec key "heatmap_wasserstein") => [->|n3].
  split; [split=> // H; case: H; rewrite /=; tauto | | ]; by move=> *; split.
case: (String.eqb_spec key "pca_multiview") => [->|n4].
  split; [split=> // H; case: H; rewrite /=; tauto | | by move=> *; split].
  by move=> fit [m|] lw; split.
case: (String.eqb_spec key "pca_singleview") => [->|n5].
  split; [split=> // H; case: H; rewrite /=; tauto | | by move=> *; split].
  by move=> fit m lw; split.
case: (String.eqb_spec key "temporal") => [->|n6].
  split; [split=> // H; case: H; rewrite /=; tauto | | ]; by move=> *; split.
case: (String.eqb_spec key "unimodal_mse") => [->|n7].
  split; [split=> // H; case: H; rewrite /=; tauto | by move=> *; split |].
  by move=> *; split.
case: (String.eqb_spec key "unimodal_wasserstein") => [->|n8].
  split; [split=> // H; case: H; rewrite /=; tauto | by move=> *; split |].
  by move=> *; split.
split; [split=> // _ /=; intuition congruence | | ]; by move=> *; split.
Qed.

Lemma registry_names_witness :
  let fit := fun (_ : string) (m : option (seq (seq nat))) =>
    PCALoss.mkPCA (Num 3) [::] [::] m in
  PCALoss.init fit "pca_singleview" None (Num 0) <> Raise TypeError.
Proof.
move=> fit.
have [_ pca _] := registry_names "pca_singleview".
apply: (proj1 (pca fit None (Num 0))).
reflexivity.
Defined.

(** ** The dispatch of the PCA call *)

Lemma reshape_rows_pairs_error (A : Type) (t : seq (seq A)) :
  nilp t || has (fun row => odd (size row)) t ->
  reshape_rows_pairs t = Raise RuntimeError.
Proof.
case: t => [|row rows] //; rewrite [nilp _]/= [_ || _]/= => bad.
rewrite /reshape_rows_pairs.
have /negbTE -> // : ~~ all (fun r : seq A => ~~ odd (size r)) (row :: rows).
by rewrite (all_predC (fun r : seq A => odd (size r))) negbK.
Qed.

(** The single-view PCA call never uses the multi-view formatter; the
    multi-view call raises [RuntimeError] before it formats when the batch
    is empty or a row has an odd number of coordinates; under any other
    name the call raises [NotImplementedError]. *)
Theorem pca_call_dispatch reproj (self : PCALoss.t)
    (keypoints_pred : tensor2) (stage : option Stage) :
  [/\ Loss.loss_name (PCALoss.base self) = "pca_singleview"%string ->
      forall fmt1 fmt2,
        PCALoss.call reproj fmt1 self keypoints_pred stage =
        PCALoss.call reproj fmt2 self keypoints_pred stage,
      Loss.loss_name (PCALoss.base self) = "pca_multiview"%string ->
      nilp keypoints_pred || has (fun row => odd (size row)) keypoints_pred ->
      forall fmt,
        PCALoss.call reproj fmt self keypoints_pred stage = Raise RuntimeError
    & Loss.loss_name (PCALoss.base self) <> "pca_singleview"%string ->
      Loss.loss_name (PCALoss.base self) <> "pca_multiview"%string ->
      forall fmt,
        PCALoss.call reproj fmt self keypoints_pred stage =
        Raise NotImplementedError].
Proof.
rewrite /PCALoss.call; split.
- by move=> -> fmt1 fmt2.
- by move=> -> bad fmt; rewrite [String.eqb _ _]/= reshape_rows_pairs_error.
- move=> /String.eqb_spec ns /String.eqb_spec nm fmt.
  by rewrite (negbTE nm) (negbTE ns).
Qed.

Lemma pca_call_dispatch_witness :
  let reproj := fun (p _ : tensor2) (_ : tensor1) => Ok p in
  let fmt := fun (t : tensor3) (_ : option (seq (seq nat))) => Ok (flatten t) in
  let self :=
    PCALoss.mk (Loss.mk (Num 0) (Num 0) "pca_multiview")
      (PCALoss.mkPCA (Num 0) [::] [::] None) in
  PCALoss.call reproj fmt self [:: [:: Num 1; Num 2; Num 3]] (Some train) =
  Raise RuntimeError.
Proof.
move=> reproj fmt self.
have [_ multi _] :=
  pca_call_dispatch reproj self [:: [:: Num 1; Num 2; Num 3]] (Some train).
apply: multi.
- reflexivity.
- reflexivity.
Defined.

(** ** Losses below epsilon *)

Lemma rectified_below (eps : tfloat) (xs : seq tfloat) :
  all (fun x => flt x eps) xs ->
  all (fun x => feq x (Num 0))
    [seq if flt x eps then Num 0 else x | x <- xs].
Proof.
by elim: xs => [|x xs IH] //= /andP [-> /IH ->]; rewrite feq_zero.
Qed.

Lemma rectified_call_zero (T : Type) (tensorT : Tensor T) (self : Loss.t)
    (loss : T) (stage : Stage) (r : R) :
  Loss.log_weight self = Num r -> (-80 <= r <= 80)%R ->
  0 < size (elems loss) ->
  all (fun x => flt x (Loss.epsilon self)) (elems loss) ->
  exists logs : seq log_dict,
    (scalar_loss <-
       Loss.reduce_loss self (Loss.rectify_epsilon self loss) "mean" ;;
     logs <- Loss.log_loss self scalar_loss (Some stage) ;;
     Ok (fmul (Loss.weight self) scalar_loss, logs)) = Ok (Num 0, logs) /\
    [seq value d | d <- logs] = [:: Num 0; Loss.weight self].
Proof.
move=> lw range n0 below; rewrite reduce_loss_mean elems_rectify_epsilon /bind.
have n0' : 0 < size [seq if flt x (Loss.epsilon self) then Num 0 else x
                    | x <- elems loss] by rewrite size_map.
rewrite (torch_mean_zeros (rectified_below below) n0').
by rewrite /Loss.log_loss (weight_times_zero lw range); eexists; split.
Qed.

(** Where epsilon-insensitivity applies, what stays below epsilon is free:
    when every element of the elementwise loss, and there is one, is
    strictly below epsilon, and [log_weight] lies between [-80] and [80],
    the temporal call and the single-view PCA call return exactly zero. *)
Theorem below_epsilon_is_free :
  (forall (self : Loss.t) (keypoints_pred loss : tensor2) (stage : Stage)
          (r : R),
     Loss.log_weight self = Num r -> (-80 <= r <= 80)%R ->
     TemporalLoss.compute_loss keypoints_pred = Ok loss ->
     0 < size (elems loss) ->
     all (fun x => flt x (Loss.epsilon self)) (elems loss) ->
     exists logs : seq log_dict,
       TemporalLoss.call self keypoints_pred (Some stage) =
         Ok (Num 0, logs) /\
       [seq value d | d <- logs] = [:: Num 0; Loss.weight self]) /\
  (forall reproj fmt (self : PCALoss.t) (keypoints_pred loss : tensor2)
          (stage : Stage) (r : R),
     Loss.loss_name (PCALoss.base self) = "pca_singleview"%string ->
     Loss.log_weight (PCALoss.base self) = Num r -> (-80 <= r <= 80)%R ->
     PCALoss.compute_loss reproj self keypoints_pred = Ok loss ->
     0 < size (elems loss) ->
     all (fun x => flt x (Loss.epsilon (PCALoss.base self))) (elems loss) ->
     exists logs : seq log_dict,
       PCALoss.call reproj fmt self keypoints_pred (Some stage) =
         Ok (Num 0, logs) /\
       [seq value d | d <- logs] =
       [:: Num 0; Loss.weight (PCALoss.base self)]).
Proof.
split.
- move=> self keypoints_pred loss stage r lw range cl n0 below.
  rewrite /TemporalLoss.call cl [bind (Ok _) _]/=.
  exact: (rectified_call_zero stage lw range n0 below).
- move=> reproj fmt self keypoints_pred loss stage r name lw range cl n0 below.
  rewrite /PCALoss.call name [String.eqb _ _]/= [String.eqb _ _]/=.
  rewrite [bind (Ok _) _]/= cl [bind (Ok _) _]/=.
  exact: (rectified_call_zero stage lw range n0 below).
Qed.

Lemma below_epsilon_is_free_witness :
  let self := TemporalLoss.init (Num 6) (Num 0) in
  exists logs : seq log_dict,
    TemporalLoss.call self
      [:: [:: Num 0; Num 0]; [:: Num 3; Num 4]; [:: Num 3; Num 4]]
      (Some train) = Ok (Num 0, logs) /\
    [seq value d | d <- logs] = [:: Num 0; Loss.weight self].
Proof.
move=> self.
apply: (proj1 below_epsilon_is_free self _ _ train 0%R _ _ temporal_3_4_5).
- reflexivity.
- lra.
- reflexivity.
- rewrite elems2 [Loss.epsilon _]/= [flatten _]/= [all _ _]/=.
  case: (Rlt_dec 5 6) => [?|?]; last lra.
  by case: (Rlt_dec 0 6) => [?|?] //; lra.
Defined.

(** ** Inputs that the calls reject *)

(** The heatmap and regression calls raise [TypeError] on a target and a
    prediction of different shapes, whatever [compute_loss] is.  The
    unimodal call raises [TypeError] when keypoints and heatmaps differ in
    batch size and [RuntimeError], before any heatmap is generated, when
    the batch is empty or a row of keypoints has an odd number of
    coordinates. *)
Theorem call_input_errors :
  (forall (T : Type) (tensorT : Tensor T) compute_loss self targ pred stage,
     ~~ same_shape targ pred ->
     @HeatmapLoss.call T tensorT compute_loss self targ pred stage =
     Raise TypeError) /\
  (forall compute_loss self targ pred stage,
     ~~ same_shape targ pred ->
     RegressionMSELoss.call compute_loss self targ pred stage =
     Raise TypeError) /\
  (forall generate_heatmaps self keypoints_pred heatmaps_pred stage,
     size keypoints_pred != size heatmaps_pred ->
     UnimodalLoss.call generate_heatmaps self keypoints_pred heatmaps_pred
       stage = Raise TypeError) /\
  (forall generate_heatmaps self keypoints_pred heatmaps_pred stage,
     size keypoints_pred = size heatmaps_pred ->
     nilp keypoints_pred || has (fun row => odd (size row)) keypoints_pred ->
     UnimodalLoss.call generate_heatmaps self keypoints_pred heatmaps_pred
       stage = Raise RuntimeError).
Proof.
split; [|split; [|split]].
- move=> T tensorT compute_loss self targ pred stage /negbTE differ.
  by rewrite /HeatmapLoss.call /HeatmapLoss.remove_nans differ.
- move=> compute_loss self targ pred stage /negbTE differ.
  by rewrite /RegressionMSELoss.call /RegressionMSELoss.remove_nans differ.
- move=> generate_heatmaps self keypoints_pred heatmaps_pred stage.
  by rewrite /UnimodalLoss.call => /negbTE ->.
- move=> generate_heatmaps self keypoints_pred heatmaps_pred stage sz bad.
  by rewrite /UnimodalLoss.call sz eqxx reshape_rows_pairs_error.
Qed.

Lemma call_input_errors_witness :
  RegressionMSELoss.call RegressionMSELoss.compute_loss
    (RegressionMSELoss.init (Num 0) (Num 0))
    [:: [:: Num 1; Num 2]] [:: [:: Num 1]] (Some train) = Raise TypeError /\
  UnimodalLoss.call (fun _ _ _ _ => Ok [::])
    (UnimodalLoss.mk (Loss.mk (Num 0) (Num 0) "unimodal_mse") 2 2 1 1 None)
    [::] [::] (Some train) = Raise RuntimeError.
Proof.
have [_ [regression [_ unimodal]]] := call_input_errors.
split.
- apply: regression.
  reflexivity.
- apply: unimodal.
  + reflexivity.
  + reflexivity.
Defined.
